(** * Local DAG orchestration: [kfp/local/dag_orchestrator.py]

    A shallow embedding of the module that runs the tasks of one pipeline
    DAG on the local machine, and the properties of its functions.

    Python values ([Any]) and protobuf literals ([struct_pb2.Value]) are
    kept abstract: the type parameters [PyValue] and [Pb2Value].  The
    collaborators living in other modules ([executor_output_utils],
    [graph_utils], [task_dispatcher]) are passed to the functions that call
    them.  Exceptions are the [Raise] results of the [res] type; mutation of
    the [IOStore], of Python dictionaries and of the outside world is
    explicit state passing. *)

From stdpp Require Import base option list gmap strings pretty.


(** ** Exceptions and results *)

(** The exceptions the module raises itself ([NotImplementedError],
    [ValueError]), the [KeyError] of a Python dictionary subscript, and the
    two lookup failures of the value store. *)
Inductive exn : Type :=
  | NotImplementedError (msg : string)
  | ValueError (msg : string)
  | KeyError (key : string)
  | MissingParentInput (name : string)
  | MissingUpstreamOutput (task key : string).

Inductive res (A : Type) : Type :=
  | Ok (a : A)
  | Raise (e : exn).
Arguments Ok {A} a.
Arguments Raise {A} e.

#[global] Instance res_ret : MRet res := fun _ a => Ok a.
#[global] Instance res_bind : MBind res := fun _ _ f m =>
  match m with
  | Ok a => f a
  | Raise e => Raise e
  end.

#[global] Instance exn_eq_dec : EqDecision exn.
Proof. solve_decision. Defined.

(** ** Protobuf messages of [pipeline_spec_pb2]

    Only the fields the module reads.  A [oneof] group is an inductive type
    with one constructor per member and one for "nothing set", which is what
    [WhichOneof] returning [None] (and every [HasField] returning [False])
    means.  A protobuf map field is the list of its items in the order
    [.items()] yields them. *)

Definition ProtoMap (V : Type) : Type := list (string * V).

(** [m[key]] on a protobuf map whose values are messages: the entry, or a
    default message when the key is absent (no [KeyError]). *)
Fixpoint proto_lookup {V : Type} (key : string) (m : ProtoMap V) : option V :=
  match m with
  | [] => None
  | (k, v) :: rest => if decide (k = key) then Some v else proto_lookup key rest
  end.

(** [ValueOrRuntimeParameter], oneof [value]. *)
Inductive ValueOrRuntimeParameter (Pb2Value : Type) : Type :=
  | constant_value (v : Pb2Value)
  | runtime_parameter (name : string)
  | constant (v : Pb2Value)
  | value_not_set.
Arguments constant_value {Pb2Value} v.
Arguments runtime_parameter {Pb2Value} name.
Arguments constant {Pb2Value} v.
Arguments value_not_set {Pb2Value}.

(** [TaskInputsSpec.InputParameterSpec], oneof [kind]. *)
Inductive InputParameterSpec (Pb2Value : Type) : Type :=
  | task_output_parameter (producer_task output_parameter_key : string)
  | runtime_value (rv : ValueOrRuntimeParameter Pb2Value)
  | component_input_parameter (name : string)
  | task_final_status (producer_task : string)
  | parameter_kind_not_set.
Arguments task_output_parameter {Pb2Value} producer_task output_parameter_key.
Arguments runtime_value {Pb2Value} rv.
Arguments component_input_parameter {Pb2Value} name.
Arguments task_final_status {Pb2Value} producer_task.
Arguments parameter_kind_not_set {Pb2Value}.

(** [TaskInputsSpec.InputArtifactSpec], oneof [kind]. *)
Inductive InputArtifactSpec : Type :=
  | task_output_artifact (producer_task output_artifact_key : string)
  | component_input_artifact (name : string)
  | artifact_kind_not_set.

Record TaskInputsSpec (Pb2Value : Type) : Type := {
  task_parameters : ProtoMap (InputParameterSpec Pb2Value);
  task_artifacts : ProtoMap InputArtifactSpec;
}.
Arguments task_parameters {Pb2Value} _.
Arguments task_artifacts {Pb2Value} _.

(** [PipelineTaskSpec]: [component_ref.name] and [inputs]. *)
Record PipelineTaskSpec (Pb2Value : Type) : Type := {
  component_ref_name : string;
  inputs : TaskInputsSpec Pb2Value;
}.
Arguments component_ref_name {Pb2Value} _.
Arguments inputs {Pb2Value} _.

(** The default [PipelineTaskSpec] message. *)
Definition default_task {Pb2Value : Type} : PipelineTaskSpec Pb2Value :=
  {| component_ref_name := "";
     inputs := {| task_parameters := []; task_artifacts := [] |} |}.

(** [ComponentInputsSpec.ParameterSpec]: the declared default. *)
Record ParameterSpec (Pb2Value : Type) : Type := {
  default_value : Pb2Value;
}.
Arguments default_value {Pb2Value} _.

(** [ComponentInputsSpec]: the declared parameter inputs. *)
Record ComponentInputsSpec (Pb2Value : Type) : Type := {
  input_parameters : ProtoMap (ParameterSpec Pb2Value);
}.
Arguments input_parameters {Pb2Value} _.

(** [DagOutputsSpec.DagOutputParameterSpec], oneof [kind]. *)
Inductive DagOutputParameterSpec : Type :=
  | value_from_parameter (producer_subtask output_parameter_key : string)
  | value_from_oneof (selectors : list (string * string))
  | output_kind_not_set.

(** [DagOutputsSpec.ArtifactSelectorSpec]. *)
Record ArtifactSelectorSpec : Type := {
  producer_subtask : string;
  output_artifact_key : string;
}.

(** [DagOutputsSpec.DagOutputArtifactSpec]: the repeated selectors. *)
Record DagOutputArtifactSpec : Type := {
  artifact_selectors : list ArtifactSelectorSpec;
}.

Record DagOutputsSpec : Type := {
  output_parameters : ProtoMap DagOutputParameterSpec;
  output_artifacts : ProtoMap DagOutputArtifactSpec;
}.

(** [DagSpec]: the tasks by name, and the outputs. *)
Record DagSpec (Pb2Value : Type) : Type := {
  tasks : ProtoMap (PipelineTaskSpec Pb2Value);
  outputs : DagOutputsSpec;
}.
Arguments tasks {Pb2Value} _.
Arguments outputs {Pb2Value} _.

(** [ComponentSpec], oneof [implementation]. *)
Inductive Implementation (Pb2Value : Type) : Type :=
  | dag (d : DagSpec Pb2Value)
  | executor_label (label : string)
  | implementation_not_set.
Arguments dag {Pb2Value} d.
Arguments executor_label {Pb2Value} label.
Arguments implementation_not_set {Pb2Value}.

Record ComponentSpec (Pb2Value : Type) : Type := {
  input_definitions : ComponentInputsSpec Pb2Value;
  implementation : Implementation Pb2Value;
}.
Arguments input_definitions {Pb2Value} _.
Arguments implementation {Pb2Value} _.

(** [PipelineDeploymentConfig.ExecutorSpec], oneof [spec]. *)
Inductive ExecutorSpec : Type :=
  | container (image : string) (command : list string)
  | importer (artifact_uri : string)
  | resolver
  | custom_job
  | spec_not_set.

(** [component_spec.dag]: the [dag] member, or the default (empty)
    [DagSpec] message when another member of the oneof is set. *)
Definition component_dag {Pb2Value : Type} (c : ComponentSpec Pb2Value)
  : DagSpec Pb2Value :=
  match implementation c with
  | dag d => d
  | _ => {| tasks := [];
            outputs := {| output_parameters := []; output_artifacts := [] |} |}
  end.

(** ** Task status ([kfp.local.status]) *)

(** Modelled from the spec: the [Status] enumeration of [kfp.local.status],
    which is not part of this module.  It has the members [SUCCESS] and
    [FAILURE]; [OTHER_STATUS] stands for any other value a dispatcher may
    hand back, with its [.name], which is what the last branch of the loop
    of [run_dag] tests for. *)
Inductive Status : Type :=
  | SUCCESS
  | FAILURE
  | OTHER_STATUS (name : string).

#[global] Instance Status_eq_dec : EqDecision Status.
Proof. solve_decision. Defined.

(** ** The value store ([kfp.local.io.IOStore]) *)

(** Modelled from the spec: the [IOStore] class of [kfp.local.io], which is
    not part of this module.  Parent inputs are keyed by input name, task
    outputs by (producer task name, output key); a [get] of an absent key
    fails with [MissingParentInput] or [MissingUpstreamOutput]. *)
Record IOStore (PyValue : Type) : Type := {
  parent_input_data : gmap string PyValue;
  task_output_data : gmap (string * string) PyValue;
}.
Arguments parent_input_data {PyValue} _.
Arguments task_output_data {PyValue} _.

Definition empty_io_store {PyValue : Type} : IOStore PyValue :=
  {| parent_input_data := ∅; task_output_data := ∅ |}.

Definition put_parent_input {PyValue : Type}
    (key : string) (value : PyValue) (s : IOStore PyValue) : IOStore PyValue :=
  {| parent_input_data := <[key := value]> (parent_input_data s);
     task_output_data := task_output_data s |}.

Definition get_parent_input {PyValue : Type}
    (key : string) (s : IOStore PyValue) : res PyValue :=
  match parent_input_data s !! key with
  | Some v => Ok v
  | None => Raise (MissingParentInput key)
  end.

Definition put_task_output {PyValue : Type}
    (task_name key : string) (value : PyValue) (s : IOStore PyValue)
  : IOStore PyValue :=
  {| parent_input_data := parent_input_data s;
     task_output_data := <[(task_name, key) := value]> (task_output_data s) |}.

Definition get_task_output {PyValue : Type}
    (task_name key : string) (s : IOStore PyValue) : res PyValue :=
  match task_output_data s !! (task_name, key) with
  | Some v => Ok v
  | None => Raise (MissingUpstreamOutput task_name key)
  end.

(** ** Python dictionaries on the heap

    A [Dict[str, Any]] is a finite map.  A dictionary that is passed
    around and updated in place is an object: a location of the heap.
    The values stored in a dictionary are never updated by this module, so
    they are plain data here and [copy.deepcopy] of a dictionary is a new
    object with the same items. *)

Abbreviation Dict PyValue := (gmap string PyValue).
Abbreviation loc := positive.
Abbreviation Heap PyValue := (gmap positive (gmap string PyValue)).

(** The dictionary a reference points to. *)
Definition heap_dict {PyValue : Type} (h : Heap PyValue) (r : loc)
  : Dict PyValue :=
  default ∅ (h !! r).

Definition deepcopy {PyValue : Type} (h : Heap PyValue) (r : loc)
  : loc * Heap PyValue :=
  let r' := fresh (dom h) in
  (r', <[r' := heap_dict h r]> h).

(** ** Loops over the items of a protobuf map *)

(** [for name, spec in m.items(): s = body(name, spec, s)], stopping at
    the first exception. *)
Fixpoint for_items {V S : Type} (body : string → V → S → res S)
    (items : ProtoMap V) (s : S) : res S :=
  match items with
  | [] => Ok s
  | (name, spec) :: rest =>
      match body name spec s with
      | Ok s' => for_items body rest s'
      | Raise e => Raise e
      end
  end.

(** ** [validate_executor] *)

Definition validate_executor (executor : ExecutorSpec) : res unit :=
  match executor with
  | importer _ =>
      Raise (NotImplementedError
        "Importer is not yet supported by local pipeline execution. Found 'dsl.importer' task in pipeline.")
  | container _ _ => Ok tt
  | _ =>
      Raise (ValueError
        "Got unknown spec in ExecutorSpec. Only dsl.component and dsl.container_component are supported in local pipeline execution.")
  end.

(** ** [join_user_inputs_and_defaults] *)

(** One turn of the loop over the declared parameters: the copied
    dictionary gets the converted default unless it has the name already. *)
Definition fill_default {PyValue Pb2Value : Type}
    (pb2_value_to_python : Pb2Value → PyValue) (copied_dag_arguments : loc)
    (h : Heap PyValue) (item : string * ParameterSpec Pb2Value)
  : Heap PyValue :=
  let '(input_name, input_spec) := item in
  let d := heap_dict h copied_dag_arguments in
  match d !! input_name with
  | Some _ => h
  | None =>
      <[copied_dag_arguments :=
          <[input_name := pb2_value_to_python (default_value input_spec)]> d]> h
  end.

(** The result is the reference to the new dictionary and the heap after
    the call. *)
Definition join_user_inputs_and_defaults {PyValue Pb2Value : Type}
    (pb2_value_to_python : Pb2Value → PyValue)
    (h : Heap PyValue) (dag_arguments : loc)
    (dag_inputs_spec : ComponentInputsSpec Pb2Value)
  : loc * Heap PyValue :=
  let '(copied_dag_arguments, h1) := deepcopy h dag_arguments in
  (copied_dag_arguments,
   foldl (fill_default pb2_value_to_python copied_dag_arguments) h1
     (input_parameters dag_inputs_spec)).

(** ** [make_task_arguments] *)

(** The body of the loop over [task_inputs_spec.parameters]: the value
    assigned to [task_arguments[input_name]], or the exception raised. *)
Definition resolve_parameter_input {PyValue Pb2Value : Type}
    (pb2_value_to_python : Pb2Value → PyValue)
    (input_name : string) (input_spec : InputParameterSpec Pb2Value)
    (io_store : IOStore PyValue) : res PyValue :=
  match input_spec with
  | runtime_value rv =>
      match rv with
      | constant c => Ok (pb2_value_to_python c)
      | _ => Raise (ValueError "Expected constant.")
      end
  | task_output_parameter producer_task output_parameter_key =>
      get_task_output producer_task output_parameter_key io_store
  | component_input_parameter name => get_parent_input name io_store
  | task_final_status _ =>
      Raise (NotImplementedError
        "'dsl.ExitHandler' is not yet support for local execution.")
  | parameter_kind_not_set =>
      Raise (ValueError ("Missing input for parameter " +:+ input_name +:+ "."))
  end.

(** The body of the loop over [task_inputs_spec.artifacts]. *)
Definition resolve_artifact_input {PyValue : Type}
    (input_name : string) (input_spec : InputArtifactSpec)
    (io_store : IOStore PyValue) : res PyValue :=
  match input_spec with
  | task_output_artifact producer_task output_artifact_key =>
      get_task_output producer_task output_artifact_key io_store
  | component_input_artifact name => get_parent_input name io_store
  | artifact_kind_not_set =>
      Raise (ValueError ("Missing input for artifact " +:+ input_name +:+ "."))
  end.

Definition make_task_arguments {PyValue Pb2Value : Type}
    (pb2_value_to_python : Pb2Value → PyValue)
    (task_inputs_spec : TaskInputsSpec Pb2Value) (io_store : IOStore PyValue)
  : res (Dict PyValue) :=
  task_arguments ←
    for_items
      (λ input_name input_spec (task_arguments : Dict PyValue),
         v ← resolve_parameter_input pb2_value_to_python
                input_name input_spec io_store;
         Ok (<[input_name := v]> task_arguments))
      (task_parameters task_inputs_spec) ∅;
  for_items
    (λ input_name input_spec (task_arguments : Dict PyValue),
       v ← resolve_artifact_input input_name input_spec io_store;
       Ok (<[input_name := v]> task_arguments))
    (task_artifacts task_inputs_spec) task_arguments.

(** ** Outputs of the DAG *)

(** The body of the loop of [get_dag_output_parameters]. *)
Definition resolve_output_parameter {PyValue : Type}
    (parameter_selector_spec : DagOutputParameterSpec)
    (io_store : IOStore PyValue) : res PyValue :=
  match parameter_selector_spec with
  | value_from_parameter producer output_parameter_key =>
      get_task_output producer output_parameter_key io_store
  | value_from_oneof _ =>
      Raise (NotImplementedError
        "'dsl.OneOf' is not yet supported in local execution.")
  | output_kind_not_set =>
      Raise (ValueError "Got unknown 'parameter_selector_spec' kind: None")
  end.

Definition get_dag_output_parameters {PyValue : Type}
    (dag_outputs_spec : DagOutputsSpec) (io_store : IOStore PyValue)
  : res (Dict PyValue) :=
  for_items
    (λ root_output_key parameter_selector_spec (outputs : Dict PyValue),
       v ← resolve_output_parameter parameter_selector_spec io_store;
       Ok (<[root_output_key := v]> outputs))
    (output_parameters dag_outputs_spec) ∅.

(** The body of the loop of [get_dag_output_artifacts]. *)
Definition resolve_output_artifact {PyValue : Type}
    (artifact_selector_spec : DagOutputArtifactSpec)
    (io_store : IOStore PyValue) : res PyValue :=
  let len_artifact_selectors :=
    length (artifact_selectors artifact_selector_spec) in
  match artifact_selectors artifact_selector_spec with
  | [artifact_selector] =>
      get_task_output (producer_subtask artifact_selector)
        (output_artifact_key artifact_selector) io_store
  | _ =>
      Raise (ValueError
        ("Expected 1 artifact in ArtifactSelectorSpec. Got: "
           +:+ pretty len_artifact_selectors))
  end.

Definition get_dag_output_artifacts {PyValue : Type}
    (dag_outputs_spec : DagOutputsSpec) (io_store : IOStore PyValue)
  : res (Dict PyValue) :=
  for_items
    (λ root_output_key artifact_selector_spec (outputs : Dict PyValue),
       v ← resolve_output_artifact artifact_selector_spec io_store;
       Ok (<[root_output_key := v]> outputs))
    (output_artifacts dag_outputs_spec) ∅.

(** [{**output_params, **output_artifacts}]: the items of the second
    dictionary replace those of the first, which the left-biased union
    with the second dictionary on the left computes. *)
Definition get_dag_outputs {PyValue : Type}
    (dag_outputs_spec : DagOutputsSpec) (io_store : IOStore PyValue)
  : res (Dict PyValue) :=
  output_params ← get_dag_output_parameters dag_outputs_spec io_store;
  output_artifacts ← get_dag_output_artifacts dag_outputs_spec io_store;
  Ok (output_artifacts ∪ output_params).

(** ** [run_dag] *)

(** The keyword arguments of one call of
    [task_dispatcher._run_single_task_implementation]. *)
Record TaskCall (PyValue Pb2Value Runner : Type) : Type := {
  call_pipeline_resource_name : string;
  call_component_name : string;
  call_component_spec : ComponentSpec Pb2Value;
  call_executor_spec : ExecutorSpec;
  call_arguments : Dict PyValue;
  call_pipeline_root : string;
  call_runner : Runner;
  call_raise_on_error : bool;
  call_block_input_artifact : bool;
  call_unique_pipeline_id : string;
}.
Arguments call_pipeline_resource_name {PyValue Pb2Value Runner} _.
Arguments call_component_name {PyValue Pb2Value Runner} _.
Arguments call_component_spec {PyValue Pb2Value Runner} _.
Arguments call_executor_spec {PyValue Pb2Value Runner} _.
Arguments call_arguments {PyValue Pb2Value Runner} _.
Arguments call_pipeline_root {PyValue Pb2Value Runner} _.
Arguments call_runner {PyValue Pb2Value Runner} _.
Arguments call_raise_on_error {PyValue Pb2Value Runner} _.
Arguments call_block_input_artifact {PyValue Pb2Value Runner} _.
Arguments call_unique_pipeline_id {PyValue Pb2Value Runner} _.

(** The task dispatcher: it runs one task in the outside world [World]
    and hands back the outputs and the status of the task. *)
Definition Dispatcher (PyValue Pb2Value Runner World : Type) : Type :=
  World → TaskCall PyValue Pb2Value Runner → (Dict PyValue * Status) * World.

(** One dispatch, as it happened: the task, the call, and what the
    dispatcher handed back.  The list of dispatches is kept in the state of
    the run so that the order of the dispatches can be stated; the code
    keeps no such list. *)
Record Dispatch (PyValue Pb2Value Runner : Type) : Type := {
  dispatch_task : string;
  dispatch_call : TaskCall PyValue Pb2Value Runner;
  dispatch_outputs : Dict PyValue;
  dispatch_status : Status;
}.
Arguments dispatch_task {PyValue Pb2Value Runner} _.
Arguments dispatch_call {PyValue Pb2Value Runner} _.
Arguments dispatch_outputs {PyValue Pb2Value Runner} _.
Arguments dispatch_status {PyValue Pb2Value Runner} _.

(** What a run reads and updates: the heap of dictionaries, the [IOStore]
    object, the outside world, and the dispatches so far. *)
Record RunState (PyValue Pb2Value Runner World : Type) : Type := {
  heap : Heap PyValue;
  io_store : IOStore PyValue;
  world : World;
  dispatched : list (Dispatch PyValue Pb2Value Runner);
}.
Arguments heap {PyValue Pb2Value Runner World} _.
Arguments io_store {PyValue Pb2Value Runner World} _.
Arguments world {PyValue Pb2Value Runner World} _.
Arguments dispatched {PyValue Pb2Value Runner World} _.

(** The arguments of [run_dag] that stay the same for every task. *)
Record RunConfig (Pb2Value Runner : Type) : Type := {
  pipeline_resource_name : string;
  executors : gmap string ExecutorSpec;
  components : gmap string (ComponentSpec Pb2Value);
  pipeline_root : string;
  runner : Runner;
  unique_pipeline_id : string;
}.
Arguments pipeline_resource_name {Pb2Value Runner} _.
Arguments executors {Pb2Value Runner} _.
Arguments components {Pb2Value Runner} _.
Arguments pipeline_root {Pb2Value Runner} _.
Arguments runner {Pb2Value Runner} _.
Arguments unique_pipeline_id {Pb2Value Runner} _.

(** [d[key]] on a Python dictionary. *)
Definition subscript {V : Type} (d : gmap string V) (key : string) : res V :=
  match d !! key with
  | Some v => Ok v
  | None => Raise (KeyError key)
  end.

(** [dag_spec.tasks[task_name]]. *)
Definition dag_task {Pb2Value : Type} (dag_spec : DagSpec Pb2Value)
    (task_name : string) : PipelineTaskSpec Pb2Value :=
  default default_task (proto_lookup task_name (tasks dag_spec)).

(** The loop body of [run_dag] up to the dispatch: the call to make for
    [task_name], or the exception raised before it. *)
Definition prepare_task {PyValue Pb2Value Runner : Type}
    (pb2_value_to_python : Pb2Value → PyValue)
    (cfg : RunConfig Pb2Value Runner) (dag_spec : DagSpec Pb2Value)
    (task_name : string) (io_store : IOStore PyValue)
  : res (TaskCall PyValue Pb2Value Runner) :=
  let task := dag_task dag_spec task_name in
  let component_name := component_ref_name task in
  component_spec ← subscript (components cfg) component_name;
  label ←
    match implementation component_spec with
    | dag _ =>
        Raise (NotImplementedError
          "Control flow features and pipelines in pipelines are not yet supported by local pipeline execution.")
    | implementation_not_set =>
        Raise (ValueError "Got unknown component implementation: None")
    | executor_label label => Ok label
    end;
  executor_spec ← subscript (executors cfg) label;
  _ ← validate_executor executor_spec;
  task_arguments ← make_task_arguments pb2_value_to_python (inputs task) io_store;
  Ok {| call_pipeline_resource_name := pipeline_resource_name cfg;
        call_component_name := component_name;
        call_component_spec := component_spec;
        call_executor_spec := executor_spec;
        call_arguments := task_arguments;
        call_pipeline_root := pipeline_root cfg;
        call_runner := runner cfg;
        call_raise_on_error := false;
        call_block_input_artifact := false;
        call_unique_pipeline_id := unique_pipeline_id cfg |}.

(** [for key, output in outputs.items(): io_store.put_task_output(...)]. *)
Definition put_task_outputs {PyValue : Type}
    (task_name : string) (outputs : Dict PyValue) (s : IOStore PyValue)
  : IOStore PyValue :=
  map_fold (λ key output s, put_task_output task_name key output s) s outputs.

(** [for k, v in d.items(): io_store.put_parent_input(k, v)]. *)
Definition put_parent_inputs {PyValue : Type}
    (d : Dict PyValue) (s : IOStore PyValue) : IOStore PyValue :=
  map_fold (λ k v s, put_parent_input k v s) s d.

(** The [while sorted_tasks:] loop.  [order] lists the tasks in the order
    [sorted_tasks.pop()] yields them.  The result is what [run_dag] returns
    or raises, with the state at that point. *)
Fixpoint run_tasks {PyValue Pb2Value Runner World : Type}
    (pb2_value_to_python : Pb2Value → PyValue)
    (run_single_task_implementation : Dispatcher PyValue Pb2Value Runner World)
    (cfg : RunConfig Pb2Value Runner) (dag_spec : DagSpec Pb2Value)
    (order : list string) (st : RunState PyValue Pb2Value Runner World)
  : res (Status * option string) * RunState PyValue Pb2Value Runner World :=
  match order with
  | [] => (Ok (SUCCESS, None), st)
  | task_name :: rest =>
      match prepare_task pb2_value_to_python cfg dag_spec task_name
              (io_store st) with
      | Raise e => (Raise e, st)
      | Ok call =>
          let '((outputs, task_status), w) :=
            run_single_task_implementation (world st) call in
          let st1 :=
            {| heap := heap st;
               io_store := io_store st;
               world := w;
               dispatched := dispatched st ++
                 [{| dispatch_task := task_name;
                     dispatch_call := call;
                     dispatch_outputs := outputs;
                     dispatch_status := task_status |}] |} in
          match task_status with
          | FAILURE => (Ok (FAILURE, Some task_name), st1)
          | SUCCESS =>
              run_tasks pb2_value_to_python run_single_task_implementation
                cfg dag_spec rest
                {| heap := heap st1;
                   io_store := put_task_outputs task_name outputs (io_store st1);
                   world := world st1;
                   dispatched := dispatched st1 |}
          | OTHER_STATUS name =>
              (Raise (ValueError ("Got unknown task status: " +:+ name)), st1)
          end
      end
  end.

(** The block [# prepare IOStore for DAG] of [run_dag]: the state in which
    the loop over the tasks starts.  [dag_arguments] is a reference to the
    dictionary of the caller. *)
Definition prepare_io_store {PyValue Pb2Value Runner World : Type}
    (pb2_value_to_python : Pb2Value → PyValue)
    (dag_component_spec : ComponentSpec Pb2Value) (dag_arguments : loc)
    (st : RunState PyValue Pb2Value Runner World)
  : RunState PyValue Pb2Value Runner World :=
  let '(dag_arguments_with_defaults, h) :=
    join_user_inputs_and_defaults pb2_value_to_python (heap st) dag_arguments
      (input_definitions dag_component_spec) in
  {| heap := h;
     io_store :=
       put_parent_inputs (heap_dict h dag_arguments_with_defaults)
         (io_store st);
     world := world st;
     dispatched := dispatched st |}.

(** [run_dag].  [sorted_tasks.pop()] takes the last element of the list,
    so the loop goes through the sorted tasks from the last one to the
    first. *)
Definition run_dag {PyValue Pb2Value Runner World : Type}
    (pb2_value_to_python : Pb2Value → PyValue)
    (topological_sort_tasks :
       ProtoMap (PipelineTaskSpec Pb2Value) → res (list string))
    (run_single_task_implementation : Dispatcher PyValue Pb2Value Runner World)
    (cfg : RunConfig Pb2Value Runner)
    (dag_component_spec : ComponentSpec Pb2Value) (dag_arguments : loc)
    (st : RunState PyValue Pb2Value Runner World)
  : res (Status * option string) * RunState PyValue Pb2Value Runner World :=
  let st0 :=
    prepare_io_store pb2_value_to_python dag_component_spec dag_arguments st in
  let dag_spec := component_dag dag_component_spec in
  match topological_sort_tasks (tasks dag_spec) with
  | Raise e => (Raise e, st0)
  | Ok sorted_tasks =>
      run_tasks pb2_value_to_python run_single_task_implementation cfg dag_spec
        (rev sorted_tasks) st0
  end.

(** ** Notions used to state the properties *)

(** The store after the outputs of the dispatches [ds] have been written,
    one dispatch after the other. *)
Definition write_outputs {PyValue Pb2Value Runner : Type}
    (s : IOStore PyValue) (d : Dispatch PyValue Pb2Value Runner)
  : IOStore PyValue :=
  put_task_outputs (dispatch_task d) (dispatch_outputs d) s.

Definition store_after {PyValue Pb2Value Runner : Type}
    (s : IOStore PyValue) (ds : list (Dispatch PyValue Pb2Value Runner))
  : IOStore PyValue :=
  foldl write_outputs s ds.

(** The tasks whose outputs a task consumes: the producers its inputs
    name. *)
Definition parameter_producer {Pb2Value : Type}
    (item : string * InputParameterSpec Pb2Value) : list string :=
  match item.2 with
  | task_output_parameter producer_task _ => [producer_task]
  | _ => []
  end.

Definition artifact_producer (item : string * InputArtifactSpec)
  : list string :=
  match item.2 with
  | task_output_artifact producer_task _ => [producer_task]
  | _ => []
  end.

Definition producers {Pb2Value : Type} (task : PipelineTaskSpec Pb2Value)
  : list string :=
  concat (map parameter_producer (task_parameters (inputs task)))
  ++ concat (map artifact_producer (task_artifacts (inputs task))).

(** Every item of a protobuf map resolves in the store. *)
Definition all_resolve {V A : Type} (resolve : string → V → res A)
    (items : ProtoMap V) : Prop :=
  Forall (λ item, ∃ v, resolve item.1 item.2 = Ok v) items.

(** The names of a protobuf map are its keys: no name twice. *)
Definition proto_keys {V : Type} (m : ProtoMap V) : list string := m.*1.

(** The inputs of a task (the outputs of a DAG) that come before a given
    one in the loop all resolve in the store. *)
Definition parameters_resolve {PyValue Pb2Value : Type}
    (pb2_value_to_python : Pb2Value → PyValue)
    (items : ProtoMap (InputParameterSpec Pb2Value))
    (io_store : IOStore PyValue) : Prop :=
  all_resolve
    (λ name spec, resolve_parameter_input pb2_value_to_python name spec io_store)
    items.

Definition artifacts_resolve {PyValue : Type}
    (items : ProtoMap InputArtifactSpec) (io_store : IOStore PyValue) : Prop :=
  all_resolve (λ name spec, resolve_artifact_input name spec io_store) items.

Definition output_parameters_resolve {PyValue : Type}
    (items : ProtoMap DagOutputParameterSpec) (io_store : IOStore PyValue)
  : Prop :=
  all_resolve (λ _ spec, resolve_output_parameter spec io_store) items.

Definition output_artifacts_resolve {PyValue : Type}
    (items : ProtoMap DagOutputArtifactSpec) (io_store : IOStore PyValue)
  : Prop :=
  all_resolve (λ _ spec, resolve_output_artifact spec io_store) items.

(** The entries of the store that the inputs of a task name: the
    (producer task, output key) pairs, and the names of parent inputs. *)
Definition parameter_output_read {Pb2Value : Type}
    (item : string * InputParameterSpec Pb2Value) : list (string * string) :=
  match item.2 with
  | task_output_parameter producer_task key => [(producer_task, key)]
  | _ => []
  end.

Definition artifact_output_read (item : string * InputArtifactSpec)
  : list (string * string) :=
  match item.2 with
  | task_output_artifact producer_task key => [(producer_task, key)]
  | _ => []
  end.

Definition task_output_reads {Pb2Value : Type} (spec : TaskInputsSpec Pb2Value)
  : list (string * string) :=
  concat (map parameter_output_read (task_parameters spec))
  ++ concat (map artifact_output_read (task_artifacts spec)).

Definition parameter_parent_read {Pb2Value : Type}
    (item : string * InputParameterSpec Pb2Value) : list string :=
  match item.2 with
  | component_input_parameter name => [name]
  | _ => []
  end.

Definition artifact_parent_read (item : string * InputArtifactSpec)
  : list string :=
  match item.2 with
  | component_input_artifact name => [name]
  | _ => []
  end.

Definition parent_input_reads {Pb2Value : Type} (spec : TaskInputsSpec Pb2Value)
  : list string :=
  concat (map parameter_parent_read (task_parameters spec))
  ++ concat (map artifact_parent_read (task_artifacts spec)).

(** One store has every entry of the other. *)
Definition store_included {PyValue : Type} (s1 s2 : IOStore PyValue) : Prop :=
  parent_input_data s1 ⊆ parent_input_data s2
  ∧ task_output_data s1 ⊆ task_output_data s2.

(** ** A concrete pipeline

    Task [A] produces the output [x = 5]; task [B] takes [A.x] as its input
    [y] and produces [z = 2 * y]; the DAG has the output [out = B.z].
    Python values and protobuf literals are integers here, and the
    conversion of a literal is the identity. *)
Module Scenario.

Definition decode (v : Z) : Z := v.

Definition task_A : PipelineTaskSpec Z :=
  {| component_ref_name := "comp-a";
     inputs := {| task_parameters := []; task_artifacts := [] |} |}.

Definition task_B : PipelineTaskSpec Z :=
  {| component_ref_name := "comp-b";
     inputs := {| task_parameters := [("y", task_output_parameter "A" "x")];
                  task_artifacts := [] |} |}.

Definition dag_outputs : DagOutputsSpec :=
  {| output_parameters := [("out", value_from_parameter "B" "z")];
     output_artifacts := [] |}.

Definition dag_AB : DagSpec Z :=
  {| tasks := [("A", task_A); ("B", task_B)]; outputs := dag_outputs |}.

(** The DAG declares the parameter inputs [n], with the default [3], and
    [m], with the default [9]. *)
Definition dag_component : ComponentSpec Z :=
  {| input_definitions :=
       {| input_parameters := [("n", {| default_value := 3%Z |});
                             ("m", {| default_value := 9%Z |})] |};
     implementation := dag dag_AB |}.

Definition leaf (label : string) : ComponentSpec Z :=
  {| input_definitions := {| input_parameters := [] |};
     implementation := executor_label label |}.

Definition cfg : RunConfig Z unit :=
  {| pipeline_resource_name := "pipeline";
     executors :=
       <["exec-a" := container "python:3.9" ["sh"]]>
         (<["exec-b" := container "python:3.9" ["sh"]]> ∅);
     components := <["comp-a" := leaf "exec-a"]> (<["comp-b" := leaf "exec-b"]> ∅);
     pipeline_root := "/tmp/root";
     runner := tt;
     unique_pipeline_id := "run-1" |}.

(** What the two components compute; the world counts the tasks run. *)
Definition task_outputs (call : TaskCall Z Z unit) : Dict Z :=
  if decide (call_component_name call = "comp-a") then {[ "x" := 5%Z ]}
  else
    match call_arguments call !! "y" with
    | Some y => {[ "z" := (2 * y)%Z ]}
    | None => ∅
    end.

Definition dispatcher_ok : Dispatcher Z Z unit nat :=
  λ w call, ((task_outputs call, SUCCESS), S w).

(** The same, but task [A] fails. *)
Definition dispatcher_fail_A : Dispatcher Z Z unit nat :=
  λ w call,
    ((task_outputs call,
      if decide (call_component_name call = "comp-a") then FAILURE
      else SUCCESS),
     S w).

(** The sorted tasks as a stack: the first task to run is the last
    element. *)
Definition sort_stack (_ : ProtoMap (PipelineTaskSpec Z))
  : res (list string) := Ok ["B"; "A"].

(** The user passes the dictionary [{"m": 7}], at location [1]. *)
Definition user_arguments : loc := 1%positive.

Definition start : RunState Z Z unit nat :=
  {| heap := {[ user_arguments := {[ "m" := 7%Z ]} ]};
     io_store := empty_io_store;
     world := 0;
     dispatched := [] |}.

Definition run_ok :=
  run_dag decode sort_stack dispatcher_ok cfg dag_component
    user_arguments start.

Definition run_fail_A :=
  run_dag decode sort_stack dispatcher_fail_A cfg dag_component
    user_arguments start.

(** Two tasks that consume nothing, and a sort that lists [A] first. *)
Definition dag_independent : DagSpec Z :=
  {| tasks := [("A", task_A);
               ("B", {| component_ref_name := "comp-b";
                        inputs := {| task_parameters := [];
                                     task_artifacts := [] |} |})];
     outputs := {| output_parameters := []; output_artifacts := [] |} |}.

Definition dag_component_independent : ComponentSpec Z :=
  {| input_definitions := {| input_parameters := [] |};
     implementation := dag dag_independent |}.

Definition sort_A_first (_ : ProtoMap (PipelineTaskSpec Z))
  : res (list string) := Ok ["A"; "B"].

Definition run_A_first :=
  run_dag decode sort_A_first dispatcher_ok cfg dag_component_independent
    user_arguments start.

(** The dispatches of the two tasks, as the runs above make them. *)
Definition call_A : TaskCall Z Z unit :=
  {| call_pipeline_resource_name := "pipeline";
     call_component_name := "comp-a";
     call_component_spec := leaf "exec-a";
     call_executor_spec := container "python:3.9" ["sh"];
     call_arguments := ∅;
     call_pipeline_root := "/tmp/root";
     call_runner := tt;
     call_raise_on_error := false;
     call_block_input_artifact := false;
     call_unique_pipeline_id := "run-1" |}.

Definition call_B : TaskCall Z Z unit :=
  {| call_pipeline_resource_name := "pipeline";
     call_component_name := "comp-b";
     call_component_spec := leaf "exec-b";
     call_executor_spec := container "python:3.9" ["sh"];
     call_arguments := {[ "y" := 5%Z ]};
     call_pipeline_root := "/tmp/root";
     call_runner := tt;
     call_raise_on_error := false;
     call_block_input_artifact := false;
     call_unique_pipeline_id := "run-1" |}.

Definition dispatch_A (status : Status) : Dispatch Z Z unit :=
  {| dispatch_task := "A"; dispatch_call := call_A;
     dispatch_outputs := {[ "x" := 5%Z ]}; dispatch_status := status |}.

Definition dispatch_B : Dispatch Z Z unit :=
  {| dispatch_task := "B"; dispatch_call := call_B;
     dispatch_outputs := {[ "z" := 10%Z ]}; dispatch_status := SUCCESS |}.

(** A store as the run leaves it, and inputs of every kind of source. *)
Definition demo_store : IOStore Z :=
  put_task_output "B" "z" 10%Z
    (put_task_output "A" "x" 5%Z (put_parent_input "n" 3%Z empty_io_store)).

Definition demo_inputs : TaskInputsSpec Z :=
  {| task_parameters :=
       [("y", task_output_parameter "A" "x");
        ("n", component_input_parameter "n");
        ("c", runtime_value (constant 42%Z))];
     task_artifacts :=
       [("data", task_output_artifact "B" "z");
        ("parent", component_input_artifact "n")] |}.

Definition demo_args : Dict Z :=
  <["y" := 5%Z]> (<["n" := 3%Z]> (<["c" := 42%Z]>
    (<["data" := 10%Z]> (<["parent" := 3%Z]> ∅)))).

Definition constant_inputs : TaskInputsSpec Z :=
  {| task_parameters := [("c", runtime_value (constant 42%Z));
                         ("k", runtime_value (constant 0%Z))];
     task_artifacts := [] |}.

Definition final_status_inputs : TaskInputsSpec Z :=
  {| task_parameters := [("c", runtime_value (constant 42%Z));
                         ("status", task_final_status "A")];
     task_artifacts := [] |}.

Definition runtime_parameter_inputs : TaskInputsSpec Z :=
  {| task_parameters := [("c", runtime_value (constant 42%Z));
                         ("r", runtime_value (runtime_parameter "p"))];
     task_artifacts := [] |}.

(** Outputs of the DAG: a parameter and an artifact with the same key, a
    one-of parameter, and an artifact with two selectors. *)
Definition selector_A : ArtifactSelectorSpec :=
  {| producer_subtask := "A"; output_artifact_key := "x" |}.

Definition selector_B : ArtifactSelectorSpec :=
  {| producer_subtask := "B"; output_artifact_key := "z" |}.

Definition colliding_outputs : DagOutputsSpec :=
  {| output_parameters := [("out", value_from_parameter "B" "z");
                           ("p", value_from_parameter "B" "z")];
     output_artifacts := [("out", {| artifact_selectors := [selector_A] |})] |}.

Definition oneof_outputs : DagOutputsSpec :=
  {| output_parameters := [("p", value_from_parameter "B" "z");
                           ("q", value_from_oneof [("A", "x"); ("B", "z")])];
     output_artifacts := [] |}.

Definition two_selector_outputs : DagOutputsSpec :=
  {| output_parameters := [("p", value_from_parameter "B" "z")];
     output_artifacts :=
       [("m", {| artifact_selectors := [selector_A] |});
        ("out", {| artifact_selectors := [selector_A; selector_B] |})] |}.

(** The same pipeline where the executor of the component of [B] is an
    importer. *)
Definition cfg_importer : RunConfig Z unit :=
  {| pipeline_resource_name := "pipeline";
     executors :=
       <["exec-a" := container "python:3.9" ["sh"]]>
         (<["exec-b" := importer "gs://bucket/data"]> ∅);
     components := <["comp-a" := leaf "exec-a"]> (<["comp-b" := leaf "exec-b"]> ∅);
     pipeline_root := "/tmp/root";
     runner := tt;
     unique_pipeline_id := "run-1" |}.

Definition run_importer :=
  run_dag decode sort_stack dispatcher_ok cfg_importer dag_component
    user_arguments start.

(** A dispatcher that reports a status that is neither [SUCCESS] nor
    [FAILURE] for task [A]. *)
Definition dispatcher_skipped_A : Dispatcher Z Z unit nat :=
  λ w call,
    ((task_outputs call,
      if decide (call_component_name call = "comp-a")
      then OTHER_STATUS "SKIPPED" else SUCCESS),
     S w).

Definition run_skipped_A :=
  run_dag decode sort_stack dispatcher_skipped_A cfg dag_component
    user_arguments start.

(** The store [demo_store] with one more task output. *)
Definition larger_store : IOStore Z := put_task_output "C" "w" 1%Z demo_store.

(** The outputs of the DAG for [colliding_outputs] in [demo_store]. *)
Definition colliding_result : Dict Z := <["out" := 5%Z]> (<["p" := 10%Z]> ∅).

End Scenario.


(** * Properties *)

Ltac res_simpl :=
  unfold mbind, res_bind, mret, res_ret in *; simpl in *.

(** Membership in a list that is written out. *)
Ltac in_list :=
  repeat first [apply list_elem_of_here | apply list_elem_of_further].

(** ** Loops that resolve every item and store the value under its name *)

Section insert_loop.
Context {V A : Type} (resolve : string → V → res A).

Local Abbreviation body :=
  (λ name spec (acc : gmap string A),
     v ← resolve name spec; Ok (<[name := v]> acc)).

Lemma for_items_app {S : Type} (f : string → V → S → res S)
    (l1 l2 : ProtoMap V) (s : S) :
  for_items f (l1 ++ l2) s =
    match for_items f l1 s with
    | Ok s' => for_items f l2 s'
    | Raise e => Raise e
    end.
Proof.
  revert s. induction l1 as [|[n x] l1 IH]; intros s; simpl; [done|].
  destruct (f n x s); [apply IH | done].
Qed.

Lemma insert_loop_ok (items : ProtoMap V) (acc : gmap string A) :
  all_resolve resolve items →
  ∃ args, for_items body items acc = Ok args.
Proof.
  intros Hall. revert acc.
  induction Hall as [|[n x] items [v Hv] _ IH]; intros acc; simpl.
  - by eexists.
  - simpl in *. rewrite Hv. res_simpl. apply IH.
Qed.

Lemma insert_loop_ok_inv (items : ProtoMap V) (acc args : gmap string A) :
  for_items body items acc = Ok args → all_resolve resolve items.
Proof.
  revert acc. induction items as [|[n x] items IH]; intros acc Hrun.
  - constructor.
  - simpl in Hrun. simpl in *.
    destruct (resolve n x) as [v|e] eqn:Hv; res_simpl; [|done].
    constructor; [by exists v | by eapply IH].
Qed.

Lemma insert_loop_raise (pre post : ProtoMap V) (name : string) (spec : V)
    (e : exn) (acc : gmap string A) :
  all_resolve resolve pre →
  resolve name spec = Raise e →
  for_items body (pre ++ (name, spec) :: post) acc = Raise e.
Proof.
  intros Hpre He. rewrite for_items_app.
  destruct (insert_loop_ok pre acc Hpre) as [args ->].
  simpl. by rewrite He.
Qed.

Lemma insert_loop_other (items : ProtoMap V) (acc args : gmap string A)
    (k : string) :
  k ∉ proto_keys items →
  for_items body items acc = Ok args →
  args !! k = acc !! k.
Proof.
  revert acc. induction items as [|[n x] items IH]; intros acc Hk Hrun.
  - simpl in Hrun. by inversion Hrun.
  - simpl in Hrun. simpl in *.
    destruct (resolve n x) as [v|e] eqn:Hv; res_simpl; [|done].
    apply not_elem_of_cons in Hk as [Hne Hk].
    rewrite (IH _ Hk Hrun). by rewrite lookup_insert_ne.
Qed.

Lemma insert_loop_lookup (items : ProtoMap V) (acc args : gmap string A)
    (k : string) (spec : V) :
  NoDup (proto_keys items) →
  (k, spec) ∈ items →
  for_items body items acc = Ok args →
  ∃ v, resolve k spec = Ok v ∧ args !! k = Some v.
Proof.
  revert acc. induction items as [|[n x] items IH]; intros acc Hnd Hin Hrun.
  - by apply elem_of_nil in Hin.
  - simpl in Hrun. simpl in *.
    destruct (resolve n x) as [v|e] eqn:Hv; res_simpl; [|done].
    apply NoDup_cons in Hnd as [Hfresh Hnd].
    apply elem_of_cons in Hin as [Heq|Hin].
    + inversion Heq; subst. exists v. split; [done|].
      rewrite (insert_loop_other items _ args n Hfresh Hrun).
      by rewrite lookup_insert_eq.
    + by eapply IH.
Qed.

Lemma insert_loop_sound (items : ProtoMap V) (acc args : gmap string A)
    (k : string) (v : A) :
  for_items body items acc = Ok args →
  args !! k = Some v →
  acc !! k = Some v ∨ ∃ spec, (k, spec) ∈ items ∧ resolve k spec = Ok v.
Proof.
  revert acc. induction items as [|[n x] items IH]; intros acc Hrun Hk.
  - simpl in Hrun. inversion Hrun; subst. by left.
  - simpl in Hrun. simpl in *.
    destruct (resolve n x) as [v0|e] eqn:Hv; res_simpl; [|done].
    destruct (IH _ Hrun Hk) as [Hacc|(spec & Hin & Hres)].
    + destruct (decide (n = k)) as [->|Hne].
      * rewrite lookup_insert_eq in Hacc. inversion Hacc; subst.
        right. exists x. split; [left | done].
      * rewrite lookup_insert_ne in Hacc by done. by left.
    + right. exists spec. split; [by right | done].
Qed.
End insert_loop.

(** ** [validate_executor] *)

(** C7.  [validate_executor] returns normally exactly for a container
    executor; it raises [NotImplementedError] (importer not supported) for
    an importer executor, and the [ValueError] of an unknown spec for every
    other kind: resolver, custom job, and no kind set at all. *)
Theorem validate_executor_accepts_only_container (executor : ExecutorSpec) :
  (validate_executor executor = Ok tt ↔
     ∃ image command, executor = container image command)
  ∧ (∀ uri, executor = importer uri →
       validate_executor executor =
         Raise (NotImplementedError
           "Importer is not yet supported by local pipeline execution. Found 'dsl.importer' task in pipeline."))
  ∧ ((∀ image command, executor ≠ container image command) →
     (∀ uri, executor ≠ importer uri) →
     validate_executor executor =
       Raise (ValueError
         "Got unknown spec in ExecutorSpec. Only dsl.component and dsl.container_component are supported in local pipeline execution."))
  ∧ (∃ msg, validate_executor spec_not_set = Raise (ValueError msg))
  ∧ (∃ msg, validate_executor resolver = Raise (ValueError msg))
  ∧ (∃ msg, validate_executor custom_job = Raise (ValueError msg)).
Proof.
  repeat split.
  - destruct executor; simpl; intros H; try discriminate H. eauto.
  - intros (image & command & ->). done.
  - intros uri ->. done.
  - intros Hc Hi. destruct executor as [image command|uri| | |]; simpl; try done.
    + by destruct (Hc image command).
    + by destruct (Hi uri).
  - simpl. eauto.
  - simpl. eauto.
  - simpl. eauto.
Qed.

(** ** [make_task_arguments] *)

Section make_task_arguments.
Context {PyValue Pb2Value : Type}.
Variable pb2_value_to_python : Pb2Value → PyValue.
Implicit Types (spec : TaskInputsSpec Pb2Value) (io_store : IOStore PyValue).
Implicit Types (args : Dict PyValue).

Lemma make_task_arguments_total spec io_store :
  parameters_resolve pb2_value_to_python (task_parameters spec) io_store →
  artifacts_resolve (task_artifacts spec) io_store →
  ∃ args, make_task_arguments pb2_value_to_python spec io_store = Ok args.
Proof.
  intros Hp Ha. unfold make_task_arguments.
  destruct (insert_loop_ok _ _ ∅ Hp) as [a1 H1]. cbv beta in H1. rewrite H1.
  destruct (insert_loop_ok _ _ a1 Ha) as [a2 H2]. cbv beta in H2.
  exists a2. exact H2.
Qed.

Lemma make_task_arguments_ok_inv spec io_store args :
  make_task_arguments pb2_value_to_python spec io_store = Ok args →
  ∃ a1,
    for_items
      (λ input_name input_spec (task_arguments : Dict PyValue),
         v ← resolve_parameter_input pb2_value_to_python
                input_name input_spec io_store;
         Ok (<[input_name := v]> task_arguments))
      (task_parameters spec) ∅ = Ok a1
    ∧ for_items
        (λ input_name input_spec (task_arguments : Dict PyValue),
           v ← resolve_artifact_input input_name input_spec io_store;
           Ok (<[input_name := v]> task_arguments))
        (task_artifacts spec) a1 = Ok args.
Proof.
  unfold make_task_arguments. intros H.
  match type of H with
  | context [for_items ?f (task_parameters spec) ∅] =>
      destruct (for_items f (task_parameters spec) ∅) as [a1|e] eqn:H1
  end; [|done].
  exists a1. split; [done | exact H].
Qed.

Lemma make_task_arguments_parameter_raise spec io_store pre post name s e :
  task_parameters spec = pre ++ (name, s) :: post →
  parameters_resolve pb2_value_to_python pre io_store →
  resolve_parameter_input pb2_value_to_python name s io_store = Raise e →
  make_task_arguments pb2_value_to_python spec io_store = Raise e.
Proof.
  intros Heq Hpre He. unfold make_task_arguments. rewrite Heq.
  pose proof (insert_loop_raise _ pre post name s e ∅ Hpre He) as H.
  cbv beta in H. by rewrite H.
Qed.

Lemma make_task_arguments_artifact_raise spec io_store pre post name s e :
  parameters_resolve pb2_value_to_python (task_parameters spec) io_store →
  task_artifacts spec = pre ++ (name, s) :: post →
  artifacts_resolve pre io_store →
  resolve_artifact_input name s io_store = Raise e →
  make_task_arguments pb2_value_to_python spec io_store = Raise e.
Proof.
  intros Hp Heq Hpre He. unfold make_task_arguments.
  destruct (insert_loop_ok _ _ ∅ Hp) as [a1 H1]. cbv beta in H1. rewrite H1.
  rewrite Heq.
  pose proof (insert_loop_raise _ pre post name s e a1 Hpre He) as H.
  cbv beta in H. exact H.
Qed.

Lemma make_task_arguments_artifact_value spec io_store args name s :
  NoDup (proto_keys (task_artifacts spec)) →
  (name, s) ∈ task_artifacts spec →
  make_task_arguments pb2_value_to_python spec io_store = Ok args →
  ∃ v, resolve_artifact_input name s io_store = Ok v ∧ args !! name = Some v.
Proof.
  intros Hnd Hin (a1 & _ & H2)%make_task_arguments_ok_inv.
  exact (insert_loop_lookup
           (λ n x, resolve_artifact_input n x io_store) _ _ _ _ _ Hnd Hin H2).
Qed.

Lemma make_task_arguments_parameter_value spec io_store args name s :
  NoDup (proto_keys (task_parameters spec)) →
  (name, s) ∈ task_parameters spec →
  name ∉ proto_keys (task_artifacts spec) →
  make_task_arguments pb2_value_to_python spec io_store = Ok args →
  ∃ v, resolve_parameter_input pb2_value_to_python name s io_store = Ok v
       ∧ args !! name = Some v.
Proof.
  intros Hnd Hin Hout (a1 & H1 & H2)%make_task_arguments_ok_inv.
  destruct (insert_loop_lookup
    (λ n x, resolve_parameter_input pb2_value_to_python n x io_store)
    _ _ _ _ _ Hnd Hin H1) as (v & Hv & Ha1).
  exists v. split; [done|].
  rewrite (insert_loop_other
    (λ n x, resolve_artifact_input n x io_store) _ _ _ _ Hout H2).
  exact Ha1.
Qed.

Lemma get_task_output_Ok io_store task key v :
  get_task_output task key io_store = Ok v ↔
  task_output_data io_store !! (task, key) = Some v.
Proof.
  unfold get_task_output.
  destruct (task_output_data io_store !! (task, key)); split; congruence.
Qed.

Lemma get_parent_input_Ok io_store key v :
  get_parent_input key io_store = Ok v ↔
  parent_input_data io_store !! key = Some v.
Proof.
  unfold get_parent_input.
  destruct (parent_input_data io_store !! key); split; congruence.
Qed.
End make_task_arguments.

(** C4.  [make_task_arguments] resolves every input by its source tag.
    When it returns the arguments, an input (parameter or artifact) that
    names an upstream output holds exactly the value the store has for that
    (producer task, output key), and an input that names a parent input
    holds exactly the stored parent input; when every input resolves it
    does return.  A parameter tagged with the final status of a task raises
    the [NotImplementedError] of the unsupported exit handler, and an input
    with no source tag raises the [ValueError] "Missing input ..." that
    names it; these are raised when the loop reaches the input, that is
    when the inputs it visits before resolve.  The names of the parameters
    are distinct, and so are the names of the artifacts, as in a protobuf
    map; an artifact replaces a parameter of the same name, so the values
    of the parameters are stated for the names that no artifact has. *)
Theorem make_task_arguments_by_source_tag {PyValue Pb2Value : Type}
    (pb2_value_to_python : Pb2Value → PyValue)
    (spec : TaskInputsSpec Pb2Value) (io_store : IOStore PyValue) :
  NoDup (proto_keys (task_parameters spec)) →
  NoDup (proto_keys (task_artifacts spec)) →
  (∀ name producer key parent v,
     (resolve_parameter_input pb2_value_to_python name
        (task_output_parameter producer key) io_store = Ok v
      ↔ task_output_data io_store !! (producer, key) = Some v)
     ∧ (resolve_artifact_input name
          (task_output_artifact producer key) io_store = Ok v
        ↔ task_output_data io_store !! (producer, key) = Some v)
     ∧ (resolve_parameter_input pb2_value_to_python name
          (component_input_parameter parent) io_store = Ok v
        ↔ parent_input_data io_store !! parent = Some v)
     ∧ (resolve_artifact_input name
          (component_input_artifact parent) io_store = Ok v
        ↔ parent_input_data io_store !! parent = Some v)
     ∧ resolve_parameter_input pb2_value_to_python name
         (task_final_status producer) io_store
       = Raise (NotImplementedError
           "'dsl.ExitHandler' is not yet support for local execution.")
     ∧ resolve_parameter_input pb2_value_to_python name
         parameter_kind_not_set io_store
       = Raise (ValueError ("Missing input for parameter " +:+ name +:+ "."))
     ∧ resolve_artifact_input name artifact_kind_not_set io_store
       = Raise (ValueError ("Missing input for artifact " +:+ name +:+ ".")))
  ∧ (∀ args, make_task_arguments pb2_value_to_python spec io_store = Ok args →
     (∀ name producer key,
        (name, task_output_parameter producer key) ∈ task_parameters spec →
        name ∉ proto_keys (task_artifacts spec) →
        is_Some (args !! name)
        ∧ args !! name = task_output_data io_store !! (producer, key))
     ∧ (∀ name producer key,
          (name, task_output_artifact producer key) ∈ task_artifacts spec →
          is_Some (args !! name)
          ∧ args !! name = task_output_data io_store !! (producer, key))
     ∧ (∀ name parent,
          (name, component_input_parameter parent) ∈ task_parameters spec →
          name ∉ proto_keys (task_artifacts spec) →
          is_Some (args !! name)
          ∧ args !! name = parent_input_data io_store !! parent)
     ∧ (∀ name parent,
          (name, component_input_artifact parent) ∈ task_artifacts spec →
          is_Some (args !! name)
          ∧ args !! name = parent_input_data io_store !! parent))
  ∧ (parameters_resolve pb2_value_to_python (task_parameters spec) io_store →
     artifacts_resolve (task_artifacts spec) io_store →
     ∃ args, make_task_arguments pb2_value_to_python spec io_store = Ok args)
  ∧ (∀ pre name producer post,
       task_parameters spec = pre ++ (name, task_final_status producer) :: post →
       parameters_resolve pb2_value_to_python pre io_store →
       make_task_arguments pb2_value_to_python spec io_store =
         Raise (NotImplementedError
           "'dsl.ExitHandler' is not yet support for local execution."))
  ∧ (∀ pre name post,
       task_parameters spec = pre ++ (name, parameter_kind_not_set) :: post →
       parameters_resolve pb2_value_to_python pre io_store →
       make_task_arguments pb2_value_to_python spec io_store =
         Raise (ValueError ("Missing input for parameter " +:+ name +:+ ".")))
  ∧ (∀ pre name post,
       parameters_resolve pb2_value_to_python (task_parameters spec) io_store →
       task_artifacts spec = pre ++ (name, artifact_kind_not_set) :: post →
       artifacts_resolve pre io_store →
       make_task_arguments pb2_value_to_python spec io_store =
         Raise (ValueError ("Missing input for artifact " +:+ name +:+ "."))).
Proof.
  intros Hndp Hnda. split; [|split; [|split; [|split; [|split]]]].
  - intros name producer key parent v. simpl.
    split; [apply get_task_output_Ok|]. split; [apply get_task_output_Ok|].
    split; [apply get_parent_input_Ok|]. split; [apply get_parent_input_Ok|].
    done.
  - intros args Hrun. repeat split.
    + destruct (make_task_arguments_parameter_value _ _ _ _ _ _
                  Hndp H H0 Hrun) as (v & _ & ->). by eexists.
    + destruct (make_task_arguments_parameter_value _ _ _ _ _ _
                  Hndp H H0 Hrun) as (v & Hv & ->).
      simpl in Hv. by apply get_task_output_Ok in Hv.
    + destruct (make_task_arguments_artifact_value _ _ _ _ _ _
                  Hnda H Hrun) as (v & _ & ->). by eexists.
    + destruct (make_task_arguments_artifact_value _ _ _ _ _ _
                  Hnda H Hrun) as (v & Hv & ->).
      simpl in Hv. by apply get_task_output_Ok in Hv.
    + destruct (make_task_arguments_parameter_value _ _ _ _ _ _
                  Hndp H H0 Hrun) as (v & _ & ->). by eexists.
    + destruct (make_task_arguments_parameter_value _ _ _ _ _ _
                  Hndp H H0 Hrun) as (v & Hv & ->).
      simpl in Hv. by apply get_parent_input_Ok in Hv.
    + destruct (make_task_arguments_artifact_value _ _ _ _ _ _
                  Hnda H Hrun) as (v & _ & ->). by eexists.
    + destruct (make_task_arguments_artifact_value _ _ _ _ _ _
                  Hnda H Hrun) as (v & Hv & ->).
      simpl in Hv. by apply get_parent_input_Ok in Hv.
  - apply make_task_arguments_total.
  - intros pre name producer post Heq Hpre.
    by eapply make_task_arguments_parameter_raise.
  - intros pre name post Heq Hpre.
    by eapply make_task_arguments_parameter_raise.
  - intros pre name post Hp Heq Hpre.
    by eapply make_task_arguments_artifact_raise.
Qed.

(** C5.  A parameter tagged [runtime_value] with a constant resolves to the
    converted literal whatever the store holds: its resolution is the same
    in any two stores, and in any two stores in which
    [make_task_arguments] returns, the argument of that name is the
    converted literal in both results.  A task whose parameters are all
    constants, and which has no artifacts, gets the same arguments in any
    two stores. *)
Theorem constant_input_ignores_store {PyValue Pb2Value : Type}
    (pb2_value_to_python : Pb2Value → PyValue)
    (s1 s2 : IOStore PyValue) :
  (∀ name c,
     resolve_parameter_input pb2_value_to_python name
       (runtime_value (constant c)) s1 = Ok (pb2_value_to_python c)
     ∧ resolve_parameter_input pb2_value_to_python name
         (runtime_value (constant c)) s2 = Ok (pb2_value_to_python c))
  ∧ (∀ (spec : TaskInputsSpec Pb2Value) name c args1 args2,
       NoDup (proto_keys (task_parameters spec)) →
       (name, runtime_value (constant c)) ∈ task_parameters spec →
       name ∉ proto_keys (task_artifacts spec) →
       make_task_arguments pb2_value_to_python spec s1 = Ok args1 →
       make_task_arguments pb2_value_to_python spec s2 = Ok args2 →
       args1 !! name = Some (pb2_value_to_python c)
       ∧ args2 !! name = Some (pb2_value_to_python c))
  ∧ (∀ (spec : TaskInputsSpec Pb2Value),
       Forall (λ item, ∃ c, item.2 = runtime_value (constant c))
         (task_parameters spec) →
       task_artifacts spec = [] →
       make_task_arguments pb2_value_to_python spec s1 =
         make_task_arguments pb2_value_to_python spec s2
       ∧ ∃ args, make_task_arguments pb2_value_to_python spec s1 = Ok args).
Proof.
  split; [|split].
  - done.
  - intros spec name c args1 args2 Hnd Hin Hout H1 H2.
    destruct (make_task_arguments_parameter_value _ _ _ _ _ _
                Hnd Hin Hout H1) as (v1 & Hv1 & ->).
    destruct (make_task_arguments_parameter_value _ _ _ _ _ _
                Hnd Hin Hout H2) as (v2 & Hv2 & ->).
    simpl in Hv1, Hv2. by inversion Hv1; inversion Hv2.
  - intros spec Hall Hart. unfold make_task_arguments. rewrite Hart.
    assert (∀ acc : Dict PyValue,
      for_items
        (λ input_name input_spec (task_arguments : Dict PyValue),
           v ← resolve_parameter_input pb2_value_to_python
                  input_name input_spec s1;
           Ok (<[input_name := v]> task_arguments))
        (task_parameters spec) acc =
      for_items
        (λ input_name input_spec (task_arguments : Dict PyValue),
           v ← resolve_parameter_input pb2_value_to_python
                  input_name input_spec s2;
           Ok (<[input_name := v]> task_arguments))
        (task_parameters spec) acc
      ∧ ∃ args,
          for_items
            (λ input_name input_spec (task_arguments : Dict PyValue),
               v ← resolve_parameter_input pb2_value_to_python
                      input_name input_spec s1;
               Ok (<[input_name := v]> task_arguments))
            (task_parameters spec) acc = Ok args) as Hloop.
    { induction Hall as [|[n x] items [c Hc] _ IH]; intros acc; simpl.
      - split; [done | by eexists].
      - simpl in Hc. subst x. res_simpl. apply IH. }
    destruct (Hloop ∅) as [Heq [args Hargs]].
    rewrite <- Heq, Hargs. res_simpl. split; [done | by eexists].
Qed.

(** C10.  A parameter tagged [runtime_value] whose value is not the
    [constant] member of the oneof (the deprecated [constant_value], a
    [runtime_parameter], or nothing set) is not taken for a literal: its
    resolution raises [ValueError] "Expected constant.", and so does
    [make_task_arguments] when the parameters before it resolve. *)
Theorem runtime_value_must_be_constant {PyValue Pb2Value : Type}
    (pb2_value_to_python : Pb2Value → PyValue)
    (name : string) (rv : ValueOrRuntimeParameter Pb2Value)
    (io_store : IOStore PyValue) :
  (∀ c, rv ≠ constant c) →
  resolve_parameter_input pb2_value_to_python name (runtime_value rv) io_store
    = Raise (ValueError "Expected constant.")
  ∧ ∀ (spec : TaskInputsSpec Pb2Value) pre post,
      task_parameters spec = pre ++ (name, runtime_value rv) :: post →
      parameters_resolve pb2_value_to_python pre io_store →
      make_task_arguments pb2_value_to_python spec io_store
        = Raise (ValueError "Expected constant.").
Proof.
  intros Hrv.
  assert (resolve_parameter_input pb2_value_to_python name (runtime_value rv)
            io_store = Raise (ValueError "Expected constant.")) as He.
  { destruct rv as [v|p|c|]; simpl; try done. by destruct (Hrv c). }
  split; [exact He|].
  intros spec pre post Heq Hpre.
  by eapply make_task_arguments_parameter_raise.
Qed.

(** ** The outputs of the DAG *)

Section dag_outputs.
Context {PyValue : Type}.
Implicit Types (spec : DagOutputsSpec) (io_store : IOStore PyValue).

Lemma get_dag_output_parameters_raise spec io_store pre post key s e :
  output_parameters spec = pre ++ (key, s) :: post →
  output_parameters_resolve pre io_store →
  resolve_output_parameter s io_store = Raise e →
  get_dag_output_parameters spec io_store = Raise e.
Proof.
  intros Heq Hpre He. unfold get_dag_output_parameters. rewrite Heq.
  exact (insert_loop_raise (λ _ x, resolve_output_parameter x io_store)
           pre post key s e ∅ Hpre He).
Qed.

Lemma get_dag_output_artifacts_raise spec io_store pre post key s e :
  output_artifacts spec = pre ++ (key, s) :: post →
  output_artifacts_resolve pre io_store →
  resolve_output_artifact s io_store = Raise e →
  get_dag_output_artifacts spec io_store = Raise e.
Proof.
  intros Heq Hpre He. unfold get_dag_output_artifacts. rewrite Heq.
  exact (insert_loop_raise (λ _ x, resolve_output_artifact x io_store)
           pre post key s e ∅ Hpre He).
Qed.

Lemma get_dag_output_parameters_total spec io_store :
  output_parameters_resolve (output_parameters spec) io_store →
  ∃ outs, get_dag_output_parameters spec io_store = Ok outs.
Proof.
  intros H.
  exact (insert_loop_ok (λ _ x, resolve_output_parameter x io_store) _ ∅ H).
Qed.

Lemma get_dag_output_artifacts_total spec io_store :
  output_artifacts_resolve (output_artifacts spec) io_store →
  ∃ outs, get_dag_output_artifacts spec io_store = Ok outs.
Proof.
  intros H.
  exact (insert_loop_ok (λ _ x, resolve_output_artifact x io_store) _ ∅ H).
Qed.

Lemma resolve_output_artifact_count (a : DagOutputArtifactSpec) io_store :
  length (artifact_selectors a) ≠ 1 →
  resolve_output_artifact a io_store =
    Raise (ValueError
      ("Expected 1 artifact in ArtifactSelectorSpec. Got: "
         +:+ pretty (length (artifact_selectors a)))).
Proof.
  unfold resolve_output_artifact.
  destruct (artifact_selectors a) as [|s1 [|s2 rest]]; simpl; done.
Qed.
End dag_outputs.

(** C9.  In the extraction of the outputs of the DAG, a parameter output
    taken from a one-of selection raises the [NotImplementedError] of the
    unsupported [dsl.OneOf], and an artifact output whose list of selectors
    has not exactly one element (none, or several) raises the [ValueError]
    that reports the number of selectors; these are raised when the loop
    reaches the output, that is when the outputs it visits before resolve.
    An artifact output with exactly one selector is read from the store at
    (producer task, output key), as a parameter output is. *)
Theorem dag_output_selection_errors {PyValue : Type}
    (spec : DagOutputsSpec) (io_store : IOStore PyValue) :
  (∀ selectors,
     resolve_output_parameter (value_from_oneof selectors) io_store
     = Raise (NotImplementedError
         "'dsl.OneOf' is not yet supported in local execution."))
  ∧ (∀ a,
       length (artifact_selectors a) ≠ 1 →
       resolve_output_artifact a io_store
       = Raise (ValueError
           ("Expected 1 artifact in ArtifactSelectorSpec. Got: "
              +:+ pretty (length (artifact_selectors a)))))
  ∧ (∀ pre key selectors post,
     output_parameters spec = pre ++ (key, value_from_oneof selectors) :: post →
     output_parameters_resolve pre io_store →
     get_dag_output_parameters spec io_store =
       Raise (NotImplementedError
         "'dsl.OneOf' is not yet supported in local execution.")
     ∧ get_dag_outputs spec io_store =
         Raise (NotImplementedError
           "'dsl.OneOf' is not yet supported in local execution."))
  ∧ (∀ pre key a post,
       output_artifacts spec = pre ++ (key, a) :: post →
       output_artifacts_resolve pre io_store →
       length (artifact_selectors a) ≠ 1 →
       get_dag_output_artifacts spec io_store =
         Raise (ValueError
           ("Expected 1 artifact in ArtifactSelectorSpec. Got: "
              +:+ pretty (length (artifact_selectors a))))
       ∧ (output_parameters_resolve (output_parameters spec) io_store →
          get_dag_outputs spec io_store =
            Raise (ValueError
              ("Expected 1 artifact in ArtifactSelectorSpec. Got: "
                 +:+ pretty (length (artifact_selectors a))))))
  ∧ (∀ selector,
       resolve_output_artifact {| artifact_selectors := [selector] |} io_store
       = resolve_output_parameter
           (value_from_parameter (producer_subtask selector)
              (output_artifact_key selector)) io_store)
  ∧ (∀ key selector outs,
       NoDup (proto_keys (output_artifacts spec)) →
       (key, {| artifact_selectors := [selector] |}) ∈ output_artifacts spec →
       get_dag_output_artifacts spec io_store = Ok outs →
       is_Some (outs !! key)
       ∧ outs !! key =
           task_output_data io_store
             !! (producer_subtask selector, output_artifact_key selector)).
Proof.
  split; [done|]. split; [intros a; apply resolve_output_artifact_count|].
  split; [|split; [|split]].
  - intros pre key selectors post Heq Hpre.
    assert (get_dag_output_parameters spec io_store =
      Raise (NotImplementedError
        "'dsl.OneOf' is not yet supported in local execution.")) as He.
    { by eapply get_dag_output_parameters_raise. }
    split; [exact He|]. unfold get_dag_outputs. by rewrite He.
  - intros pre key a post Heq Hpre Hlen.
    assert (get_dag_output_artifacts spec io_store =
      Raise (ValueError
        ("Expected 1 artifact in ArtifactSelectorSpec. Got: "
           +:+ pretty (length (artifact_selectors a))))) as He.
    { eapply get_dag_output_artifacts_raise; [exact Heq | exact Hpre |].
      by apply resolve_output_artifact_count. }
    split; [exact He|]. intros Hp.
    destruct (get_dag_output_parameters_total _ _ Hp) as [pm Hpm].
    unfold get_dag_outputs. rewrite Hpm. res_simpl. by rewrite He.
  - done.
  - intros key selector outs Hnd Hin Hrun.
    destruct (insert_loop_lookup (λ _ x, resolve_output_artifact x io_store)
                _ _ _ _ _ Hnd Hin Hrun) as (v & Hv & ->).
    split; [by eexists|].
    simpl in Hv. unfold resolve_output_artifact in Hv. simpl in Hv.
    by apply get_task_output_Ok in Hv.
Qed.

(** C8.  When the parameter outputs and the artifact outputs of the DAG
    both resolve, [get_dag_outputs] returns their union: a map whose keys
    are the keys of the two maps, in which every key of the artifact map
    has the value of the artifact map (also when the parameter map has the
    key), and every other key has the value of the parameter map. *)
Theorem get_dag_outputs_union {PyValue : Type}
    (spec : DagOutputsSpec) (io_store : IOStore PyValue)
    (output_params output_artifacts : Dict PyValue) :
  get_dag_output_parameters spec io_store = Ok output_params →
  get_dag_output_artifacts spec io_store = Ok output_artifacts →
  ∃ result,
    get_dag_outputs spec io_store = Ok result
    ∧ dom result = dom output_params ∪ dom output_artifacts
    ∧ (∀ key v, output_artifacts !! key = Some v → result !! key = Some v)
    ∧ (∀ key, output_artifacts !! key = None →
         result !! key = output_params !! key).
Proof.
  intros Hp Ha. exists (output_artifacts ∪ output_params).
  split; [|split; [|split]].
  - unfold get_dag_outputs. rewrite Hp. res_simpl. by rewrite Ha.
  - rewrite dom_union_L. apply (comm_L (∪)).
  - intros key v Hv. by apply lookup_union_Some_l.
  - intros key Hnone. by apply lookup_union_r.
Qed.

(** ** [join_user_inputs_and_defaults] *)

Section join_user_inputs_and_defaults.
Context {PyValue Pb2Value : Type}.
Variable pb2_value_to_python : Pb2Value → PyValue.

Lemma heap_dict_Some (h : Heap PyValue) (r : loc) (d : Dict PyValue) :
  h !! r = Some d → heap_dict h r = d.
Proof. unfold heap_dict. by intros ->. Qed.

(** The loop over the declared parameters, from a heap in which the copy
    holds [d0]: a name of [d0] keeps its value, another name gets the
    default of its first declaration, and no other object changes. *)
Lemma fill_defaults_spec (items : ProtoMap (ParameterSpec Pb2Value))
    (copied : loc) (h : Heap PyValue) (d0 : Dict PyValue) :
  h !! copied = Some d0 →
  ∃ d,
    foldl (fill_default pb2_value_to_python copied) h items !! copied = Some d
    ∧ (∀ k, d !! k =
         match d0 !! k with
         | Some v => Some v
         | None =>
             (λ ps, pb2_value_to_python (default_value ps))
               <$> proto_lookup k items
         end)
    ∧ (∀ l, l ≠ copied →
         foldl (fill_default pb2_value_to_python copied) h items !! l = h !! l).
Proof.
  revert h d0. induction items as [|[n ps] items IH]; intros h d0 Hd0; simpl.
  - exists d0. split; [done|]. split; [|done].
    intros k. by destruct (d0 !! k).
  - rewrite (heap_dict_Some _ _ _ Hd0).
    destruct (d0 !! n) as [v0|] eqn:Hn.
    + destruct (IH h d0 Hd0) as (d & Hd & Hk & Hl).
      exists d. split; [done|]. split; [|done].
      intros k. rewrite Hk. destruct (d0 !! k) eqn:Hk0; [done|].
      destruct (decide (n = k)) as [->|Hne]; [congruence | done].
    + destruct (IH (<[copied :=
                       <[n := pb2_value_to_python (default_value ps)]> d0]> h)
                  (<[n := pb2_value_to_python (default_value ps)]> d0))
        as (d & Hd & Hk & Hl).
      { by rewrite lookup_insert_eq. }
      exists d. split; [done|]. split.
      * intros k. rewrite Hk.
        destruct (decide (n = k)) as [->|Hne].
        -- by rewrite lookup_insert_eq, Hn.
        -- by rewrite lookup_insert_ne.
      * intros l Hne. rewrite (Hl l Hne). by rewrite lookup_insert_ne.
Qed.
End join_user_inputs_and_defaults.

(** C6.  [join_user_inputs_and_defaults] returns a new dictionary in which
    every key of the user's dictionary has the user's value (also when the
    key has a declared default), every declared parameter that the user's
    dictionary lacks has its declared default, converted, and there is no
    other key.  The call leaves the user's dictionary as it was: the result
    is another object, and every object that was on the heap is
    unchanged. *)
Theorem join_user_inputs_and_defaults_merges {PyValue Pb2Value : Type}
    (pb2_value_to_python : Pb2Value → PyValue)
    (h : Heap PyValue) (dag_arguments : loc) (user : Dict PyValue)
    (dag_inputs_spec : ComponentInputsSpec Pb2Value)
    (result : loc) (h' : Heap PyValue) :
  h !! dag_arguments = Some user →
  join_user_inputs_and_defaults pb2_value_to_python h dag_arguments
    dag_inputs_spec = (result, h') →
  ∃ merged,
    h' !! result = Some merged
    ∧ (∀ k v, user !! k = Some v → merged !! k = Some v)
    ∧ (∀ k ps,
         proto_lookup k (input_parameters dag_inputs_spec) = Some ps →
         user !! k = None →
         merged !! k = Some (pb2_value_to_python (default_value ps)))
    ∧ (∀ k,
         user !! k = None →
         proto_lookup k (input_parameters dag_inputs_spec) = None →
         merged !! k = None)
    ∧ result ≠ dag_arguments
    ∧ h' !! dag_arguments = Some user
    ∧ (∀ l, is_Some (h !! l) → h' !! l = h !! l).
Proof.
  intros Huser Hjoin. unfold join_user_inputs_and_defaults, deepcopy in Hjoin.
  inversion Hjoin as [[Hres Hh']]. clear Hjoin.
  rewrite (heap_dict_Some _ _ _ Huser).
  set (copied := fresh (dom h)).
  assert (h !! copied = None) as Hfresh.
  { apply not_elem_of_dom. apply is_fresh. }
  assert (copied ≠ dag_arguments) as Hne by congruence.
  destruct (fill_defaults_spec pb2_value_to_python
              (input_parameters dag_inputs_spec) copied
              (<[copied := user]> h) user) as (merged & Hm & Hk & Hl).
  { by rewrite lookup_insert_eq. }
  exists merged. split; [exact Hm|].
  split; [|split; [|split; [|split; [|split]]]].
  - intros k v Hv. by rewrite Hk, Hv.
  - intros k ps Hps Hnone. by rewrite Hk, Hnone, Hps.
  - intros k Hnone Hps. by rewrite Hk, Hnone, Hps.
  - done.
  - rewrite Hl by done. by rewrite lookup_insert_ne.
  - intros l [d Hd]. assert (l ≠ copied) as Hlc by congruence.
    rewrite Hl by done. by rewrite lookup_insert_ne.
Qed.

(** ** [run_dag] *)

Lemma put_task_outputs_spec {PyValue : Type} (task_name : string)
    (outputs : Dict PyValue) (s : IOStore PyValue) :
  parent_input_data (put_task_outputs task_name outputs s)
    = parent_input_data s
  ∧ ∀ t k,
      task_output_data (put_task_outputs task_name outputs s) !! (t, k) =
        if decide (t = task_name) then
          match outputs !! k with
          | Some v => Some v
          | None => task_output_data s !! (t, k)
          end
        else task_output_data s !! (t, k).
Proof.
  unfold put_task_outputs.
  apply (map_fold_weak_ind
    (λ (r : IOStore PyValue) (m : Dict PyValue),
       parent_input_data r = parent_input_data s
       ∧ ∀ t k,
           task_output_data r !! (t, k) =
             if decide (t = task_name) then
               match m !! k with
               | Some v => Some v
               | None => task_output_data s !! (t, k)
               end
             else task_output_data s !! (t, k))).
  - split; [done|]. intros t k. rewrite lookup_empty. by case_decide.
  - intros i x m r Hi [Hp Ht]. split; [done|]. intros t k. simpl.
    destruct (decide ((task_name, i) = (t, k))) as [Heq|Hne].
    + inversion Heq; subst. rewrite !lookup_insert_eq.
      by rewrite decide_True.
    + rewrite lookup_insert_ne by done. rewrite Ht.
      case_decide; [|done]. subst t.
      rewrite lookup_insert_ne by congruence. done.
Qed.

Section run_tasks.
Context {PyValue Pb2Value Runner World : Type}.
Variable pb2_value_to_python : Pb2Value → PyValue.
Variable run_single_task_implementation :
  Dispatcher PyValue Pb2Value Runner World.
Variable cfg : RunConfig Pb2Value Runner.
Variable dag_spec : DagSpec Pb2Value.

Local Abbreviation run :=
  (run_tasks pb2_value_to_python run_single_task_implementation cfg dag_spec).
Local Abbreviation prepare := (prepare_task pb2_value_to_python cfg dag_spec).
Local Abbreviation succeeded :=
  (λ d : Dispatch PyValue Pb2Value Runner, dispatch_status d = SUCCESS).

Lemma store_after_cons (s : IOStore PyValue)
    (d : Dispatch PyValue Pb2Value Runner) ds :
  store_after s (d :: ds) = store_after (write_outputs s d) ds.
Proof. done. Qed.

Lemma store_after_snoc (s : IOStore PyValue)
    (d : Dispatch PyValue Pb2Value Runner) ds :
  store_after s (ds ++ [d]) = write_outputs (store_after s ds) d.
Proof. unfold store_after. by rewrite foldl_app. Qed.

(** What a run of the loop leaves behind.  [done] are the dispatches of
    the run, in order, and [rest] the tasks it did not reach. *)
Lemma run_tasks_trace (order : list string)
    (st : RunState PyValue Pb2Value Runner World) r st' :
  run order st = (r, st') →
  ∃ done rest,
    dispatched st' = dispatched st ++ done
    ∧ heap st' = heap st
    ∧ order = map dispatch_task done ++ rest
    ∧ (∀ i d, done !! i = Some d →
         prepare (dispatch_task d) (store_after (io_store st) (take i done))
           = Ok (dispatch_call d)
         ∧ ∃ w w',
             run_single_task_implementation w (dispatch_call d)
               = ((dispatch_outputs d, dispatch_status d), w'))
    ∧ (∀ i d, done !! i = Some d → S i < length done → succeeded d)
    ∧ match r with
      | Ok (SUCCESS, None) =>
          rest = [] ∧ Forall succeeded done
          ∧ io_store st' = store_after (io_store st) done
      | Ok (FAILURE, Some t) =>
          ∃ pre d,
            done = pre ++ [d] ∧ dispatch_task d = t
            ∧ dispatch_status d = FAILURE
            ∧ io_store st' = store_after (io_store st) pre
      | Ok _ => False
      | Raise e =>
          (Forall succeeded done
           ∧ io_store st' = store_after (io_store st) done
           ∧ ∃ t rest', rest = t :: rest' ∧ prepare t (io_store st') = Raise e)
          ∨ (∃ pre d name,
               done = pre ++ [d]
               ∧ dispatch_status d = OTHER_STATUS name
               ∧ e = ValueError ("Got unknown task status: " +:+ name)
               ∧ io_store st' = store_after (io_store st) pre)
      end.
Proof.
  revert st. induction order as [|t order IH]; intros st Hrun.
  - simpl in Hrun. inversion Hrun; subst. exists [], [].
    rewrite app_nil_r. repeat split; try done.
  - simpl in Hrun.
    destruct (prepare t (io_store st)) as [call|e] eqn:Hprep.
    2:{ inversion Hrun; subst. exists [], (t :: order).
        rewrite app_nil_r. repeat split; try done.
        left. repeat split; try done. by exists t, order. }
    destruct (run_single_task_implementation (world st) call)
      as [[outs status] w] eqn:Hcall.
    set (d0 := {| dispatch_task := t; dispatch_call := call;
                  dispatch_outputs := outs; dispatch_status := status |}).
    fold d0 in Hrun.
    assert (∀ i d, [d0] !! i = Some d →
              (prepare (dispatch_task d)
                 (store_after (io_store st) (take i [d0])) = Ok (dispatch_call d)
               ∧ ∃ w w', run_single_task_implementation w (dispatch_call d)
                           = ((dispatch_outputs d, dispatch_status d), w')))
      as Hsingle.
    { intros [|i] d Hd; [|done]. inversion Hd; subst d. simpl.
      split; [done | by exists (world st), w]. }
    destruct status as [| |name].
    + apply IH in Hrun as (done & rest & Hdisp & Hheap & Hord & Hvalid
                           & Hinit & Hout).
      simpl in Hdisp, Hheap, Hvalid, Hout.
      exists (d0 :: done), rest. split; [|split; [|split; [|split; [|split]]]].
      * rewrite Hdisp. by rewrite <- app_assoc.
      * done.
      * simpl. by rewrite Hord.
      * intros [|i] d Hd.
        -- apply (Hsingle 0 d). exact Hd.
        -- simpl in Hd. change (take (S i) (d0 :: done)) with (d0 :: take i done).
           rewrite store_after_cons. by apply Hvalid.
      * intros [|i] d Hd Hlt.
        -- by inversion Hd; subst d.
        -- simpl in Hd, Hlt. apply (Hinit i d Hd). lia.
      * destruct r as [[[| |other] [tf|]]|e]; try done.
        -- destruct Hout as (-> & Hall & Hst). repeat split; try done.
           by constructor.
        -- destruct Hout as (pre & d & -> & Ht & Hs & Hst).
           exists (d0 :: pre), d. repeat split; try done.
        -- destruct Hout as [(Hall & Hst & Hrest)|(pre & d & n & -> & Hs & He & Hst)].
           ++ left. repeat split; try done. by constructor.
           ++ right. exists (d0 :: pre), d, n. repeat split; try done.
    + inversion Hrun; subst. exists [d0], order.
      split; [|split; [|split; [|split; [|split]]]]; try done.
      * intros [|i] d Hd Hlt; simpl in *; [lia | done].
      * by exists [], d0.
    + inversion Hrun; subst. exists [d0], order.
      split; [|split; [|split; [|split; [|split]]]]; try done.
      * intros [|i] d Hd Hlt; simpl in *; [lia | done].
      * right. by exists [], d0, name.
Qed.

(** All the dispatches but the last one of a run have succeeded. *)
Lemma all_but_last_succeeded
    (pre : list (Dispatch PyValue Pb2Value Runner)) d :
  (∀ i x, (pre ++ [d]) !! i = Some x → S i < length (pre ++ [d]) →
     succeeded x) →
  Forall succeeded pre.
Proof.
  intros H. apply Forall_lookup. intros i x Hx.
  apply (H i x).
  - by apply lookup_app_l_Some.
  - rewrite length_app. simpl. apply lookup_lt_Some in Hx. lia.
Qed.
End run_tasks.

Section run_dag.
Context {PyValue Pb2Value Runner World : Type}.
Variable pb2_value_to_python : Pb2Value → PyValue.
Variable topological_sort_tasks :
  ProtoMap (PipelineTaskSpec Pb2Value) → res (list string).
Variable run_single_task_implementation :
  Dispatcher PyValue Pb2Value Runner World.
Variable cfg : RunConfig Pb2Value Runner.
Variable dag_component_spec : ComponentSpec Pb2Value.
Variable dag_arguments : loc.

Local Abbreviation dag_spec := (component_dag dag_component_spec).
Local Abbreviation succeeded :=
  (λ d : Dispatch PyValue Pb2Value Runner, dispatch_status d = SUCCESS).

Lemma prepare_io_store_dispatched
    (st : RunState PyValue Pb2Value Runner World) :
  dispatched
    (prepare_io_store pb2_value_to_python dag_component_spec dag_arguments st)
  = dispatched st.
Proof.
  unfold prepare_io_store.
  by destruct (join_user_inputs_and_defaults _ _ _ _).
Qed.

(** A run of [run_dag] is the preparation of the store, the sort, and a
    run of the loop over the reversed sort. *)
Lemma run_dag_cases (st : RunState PyValue Pb2Value Runner World) r st' :
  run_dag pb2_value_to_python topological_sort_tasks
    run_single_task_implementation cfg dag_component_spec dag_arguments st
    = (r, st') →
  (∃ e, topological_sort_tasks (tasks dag_spec) = Raise e
        ∧ r = Raise e ∧ dispatched st' = dispatched st)
  ∨ (∃ sorted_tasks,
       topological_sort_tasks (tasks dag_spec) = Ok sorted_tasks
       ∧ run_tasks pb2_value_to_python run_single_task_implementation cfg
           dag_spec (rev sorted_tasks)
           (prepare_io_store pb2_value_to_python dag_component_spec
              dag_arguments st) = (r, st')).
Proof.
  unfold run_dag. intros Hrun.
  destruct (topological_sort_tasks (tasks dag_spec)) as [sorted|e].
  - right. by exists sorted.
  - left. exists e. inversion Hrun; subst.
    by rewrite prepare_io_store_dispatched.
Qed.

Lemma no_new_dispatch {X : Type} (l done : list X) (x : X) :
  l = l ++ done → x ∈ done → False.
Proof.
  intros Heq Hin. rewrite <- (app_nil_r l) in Heq at 1.
  apply app_inv_head in Heq. subst done. by apply elem_of_nil in Hin.
Qed.
End run_dag.

(** C1.  In a run of [run_dag] in which a dispatched task reports
    [FAILURE], the result is [(FAILURE, name of that task)] and that
    dispatch is the last one of the run: the tasks that follow it in the
    order of the loop are not dispatched.  The dispatches before it all
    succeeded, and the store at the end is the store in which exactly their
    outputs were written: the outputs of the failing task are not written,
    and what the tasks before it wrote is still there. *)
Theorem run_dag_stops_at_failure {PyValue Pb2Value Runner World : Type}
    (pb2_value_to_python : Pb2Value → PyValue)
    (topological_sort_tasks :
       ProtoMap (PipelineTaskSpec Pb2Value) → res (list string))
    (run_single_task_implementation : Dispatcher PyValue Pb2Value Runner World)
    (cfg : RunConfig Pb2Value Runner)
    (dag_component_spec : ComponentSpec Pb2Value) (dag_arguments : loc)
    (st st' : RunState PyValue Pb2Value Runner World)
    (r : res (Status * option string))
    (done : list (Dispatch PyValue Pb2Value Runner))
    (d : Dispatch PyValue Pb2Value Runner) :
  run_dag pb2_value_to_python topological_sort_tasks
    run_single_task_implementation cfg dag_component_spec dag_arguments st
    = (r, st') →
  dispatched st' = dispatched st ++ done →
  d ∈ done →
  dispatch_status d = FAILURE →
  r = Ok (FAILURE, Some (dispatch_task d))
  ∧ ∃ pre sorted_tasks rest,
      done = pre ++ [d]
      ∧ Forall (λ p, dispatch_status p = SUCCESS) pre
      ∧ topological_sort_tasks (tasks (component_dag dag_component_spec))
          = Ok sorted_tasks
      ∧ rev sorted_tasks = map dispatch_task pre ++ dispatch_task d :: rest
      ∧ io_store st' =
          store_after
            (io_store (prepare_io_store pb2_value_to_python
                         dag_component_spec dag_arguments st))
            pre.
Proof.
  intros Hrun Hdisp Hin Hfail.
  apply run_dag_cases in Hrun as [(e & _ & _ & Hsame)|(sorted & Hsort & Hrun)].
  { rewrite Hsame in Hdisp. destruct (no_new_dispatch _ _ _ Hdisp Hin). }
  apply run_tasks_trace in Hrun
    as (done' & rest & Hd' & _ & Hord & _ & Hinit & Hout).
  rewrite prepare_io_store_dispatched, Hdisp in Hd'.
  apply app_inv_head in Hd'. subst done'.
  assert (∀ pre d1, done = pre ++ [d1] → dispatch_status d1 ≠ FAILURE → False)
    as Hlast.
  { intros pre d1 -> Hd1. apply elem_of_app in Hin as [Hin|Hin].
    - pose proof (all_but_last_succeeded pre d1 Hinit) as Hpre.
      rewrite Forall_forall in Hpre. specialize (Hpre d Hin). congruence.
    - apply list_elem_of_singleton in Hin. by subst d1. }
  assert (Forall (λ p, dispatch_status p = SUCCESS) done → False) as Hall.
  { intros Hall. rewrite Forall_forall in Hall. specialize (Hall d Hin).
    congruence. }
  destruct r as [[[| |other] [tf|]]|e]; try done.
  - destruct Hout as (_ & Hs & _). destruct (Hall Hs).
  - destruct Hout as (pre & d1 & Heq & Ht & Hs & Hst).
    assert (d = d1) as <-.
    { subst done. apply elem_of_app in Hin as [Hin|Hin].
      - pose proof (all_but_last_succeeded pre d1 Hinit) as Hpre.
        rewrite Forall_forall in Hpre. specialize (Hpre d Hin). congruence.
      - by apply list_elem_of_singleton in Hin. }
    subst tf. split; [done|].
    exists pre, sorted, rest. subst done.
    split; [done|]. split; [by eapply all_but_last_succeeded|].
    split; [done|]. split; [|done].
    rewrite Hord, map_app. simpl. by rewrite <- app_assoc.
  - destruct Hout as [(Hs & _)|(pre & d1 & name & Heq & Hs & _)].
    + destruct (Hall Hs).
    + destruct (Hlast pre d1 Heq). congruence.
Qed.

(** C2, as the code has it.  In a run of [run_dag] that raises no
    exception and in which every dispatched task reports [SUCCESS], the
    result is [(SUCCESS, None)] and
    every task of the sort was dispatched.  For each dispatch, every
    (output key, value) the dispatcher returned is in the store under
    (task name, output key) once the loop has handled the dispatch, and it
    is from that store that the call of the next dispatch was prepared. *)
Theorem run_dag_all_success {PyValue Pb2Value Runner World : Type}
    (pb2_value_to_python : Pb2Value → PyValue)
    (topological_sort_tasks :
       ProtoMap (PipelineTaskSpec Pb2Value) → res (list string))
    (run_single_task_implementation : Dispatcher PyValue Pb2Value Runner World)
    (cfg : RunConfig Pb2Value Runner)
    (dag_component_spec : ComponentSpec Pb2Value) (dag_arguments : loc)
    (st st' : RunState PyValue Pb2Value Runner World)
    (r : res (Status * option string))
    (done : list (Dispatch PyValue Pb2Value Runner)) :
  run_dag pb2_value_to_python topological_sort_tasks
    run_single_task_implementation cfg dag_component_spec dag_arguments st
    = (r, st') →
  dispatched st' = dispatched st ++ done →
  (∀ e, r ≠ Raise e) →
  Forall (λ d, dispatch_status d = SUCCESS) done →
  let s0 :=
    io_store (prepare_io_store pb2_value_to_python dag_component_spec
                dag_arguments st) in
  r = Ok (SUCCESS, None)
  ∧ (∃ sorted_tasks,
       topological_sort_tasks (tasks (component_dag dag_component_spec))
         = Ok sorted_tasks
       ∧ map dispatch_task done = rev sorted_tasks)
  ∧ io_store st' = store_after s0 done
  ∧ ∀ i d, done !! i = Some d →
      (∃ w w',
         run_single_task_implementation w (dispatch_call d)
           = ((dispatch_outputs d, SUCCESS), w'))
      ∧ (∀ key v,
           dispatch_outputs d !! key = Some v →
           task_output_data (store_after s0 (take (S i) done))
             !! (dispatch_task d, key) = Some v)
      ∧ (∀ d', done !! S i = Some d' →
           prepare_task pb2_value_to_python cfg
             (component_dag dag_component_spec) (dispatch_task d')
             (store_after s0 (take (S i) done)) = Ok (dispatch_call d')).
Proof.
  intros Hrun Hdisp Hnoraise Hall s0.
  apply run_dag_cases in Hrun as [(e & _ & -> & _)|(sorted & Hsort & Hrun)].
  { by destruct (Hnoraise e). }
  apply run_tasks_trace in Hrun
    as (done' & rest & Hd' & _ & Hord & Hvalid & _ & Hout).
  rewrite prepare_io_store_dispatched, Hdisp in Hd'.
  apply app_inv_head in Hd'. subst done'.
  destruct r as [[[| |other] [tf|]]|e]; try done.
  2:{ destruct Hout as (pre & d1 & -> & _ & Hs & _).
      apply Forall_app in Hall as [_ Hd1]. rewrite Forall_singleton in Hd1.
      congruence. }
  2:{ by destruct (Hnoraise e). }
  destruct Hout as (-> & _ & Hst). rewrite app_nil_r in Hord.
  split; [done|]. split; [by exists sorted|]. split; [done|].
  intros i d Hd. split; [|split].
  - destruct (Hvalid i d Hd) as (_ & w & w' & Hw).
    rewrite Forall_lookup in Hall. rewrite (Hall i d Hd) in Hw. by exists w, w'.
  - intros key v Hv. rewrite (take_S_r _ _ _ Hd), store_after_snoc.
    unfold write_outputs.
    destruct (put_task_outputs_spec (dispatch_task d) (dispatch_outputs d)
                (store_after s0 (take i done))) as [_ Hlook].
    rewrite Hlook, decide_True by done. by rewrite Hv.
  - intros d' Hd'. by destruct (Hvalid (S i) d' Hd') as [Hprep _].
Qed.

(** C3, as the code has it.  [run_dag] takes the sorted tasks from the end
    of the list: the tasks it dispatches are, in order, a prefix of the
    reversed sort, and all of it when the run returns [(SUCCESS, None)].
    So when the sort lists every task before the tasks whose outputs it
    consumes (the first task to run last), every dispatched task is
    dispatched after the tasks whose outputs it consumes. *)
Theorem run_dag_dispatches_from_the_end
    {PyValue Pb2Value Runner World : Type}
    (pb2_value_to_python : Pb2Value → PyValue)
    (topological_sort_tasks :
       ProtoMap (PipelineTaskSpec Pb2Value) → res (list string))
    (run_single_task_implementation : Dispatcher PyValue Pb2Value Runner World)
    (cfg : RunConfig Pb2Value Runner)
    (dag_component_spec : ComponentSpec Pb2Value) (dag_arguments : loc)
    (st st' : RunState PyValue Pb2Value Runner World)
    (r : res (Status * option string))
    (done : list (Dispatch PyValue Pb2Value Runner))
    (sorted_tasks : list string) :
  run_dag pb2_value_to_python topological_sort_tasks
    run_single_task_implementation cfg dag_component_spec dag_arguments st
    = (r, st') →
  dispatched st' = dispatched st ++ done →
  topological_sort_tasks (tasks (component_dag dag_component_spec))
    = Ok sorted_tasks →
  (∃ rest, rev sorted_tasks = map dispatch_task done ++ rest)
  ∧ (r = Ok (SUCCESS, None) → map dispatch_task done = rev sorted_tasks)
  ∧ ((∀ l1 t l2,
        sorted_tasks = l1 ++ t :: l2 →
        ∀ p, p ∈ producers (dag_task (component_dag dag_component_spec) t) →
             p ∈ l2) →
     ∀ pre d post,
       done = pre ++ d :: post →
       ∀ p,
         p ∈ producers
               (dag_task (component_dag dag_component_spec) (dispatch_task d)) →
         p ∈ map dispatch_task pre).
Proof.
  intros Hrun Hdisp Hsort.
  apply run_dag_cases in Hrun as [(e & He & _)|(sorted & Hsort' & Hrun)].
  { congruence. }
  rewrite Hsort in Hsort'. inversion Hsort'; subst sorted. clear Hsort'.
  apply run_tasks_trace in Hrun
    as (done' & rest & Hd' & _ & Hord & _ & _ & Hout).
  rewrite prepare_io_store_dispatched, Hdisp in Hd'.
  apply app_inv_head in Hd'. subst done'.
  split; [by exists rest|]. split.
  - intros ->. destruct Hout as (-> & _). by rewrite app_nil_r in Hord.
  - intros Hstack pre d post -> p Hp.
    rewrite map_app, <- app_assoc in Hord. simpl in Hord.
    assert (sorted_tasks =
              rev (map dispatch_task post ++ rest)
              ++ dispatch_task d :: rev (map dispatch_task pre)) as Hdecomp.
    { rewrite <- (rev_involutive sorted_tasks), Hord.
      rewrite rev_app_distr. simpl. by rewrite <- app_assoc. }
    specialize (Hstack _ _ _ Hdecomp p Hp).
    apply list_elem_of_In. apply in_rev. by apply list_elem_of_In.
Qed.

(** * Further properties of the module *)

(** ** Protobuf maps and the loops over them *)

Lemma proto_lookup_None {V : Type} (key : string) (m : ProtoMap V) :
  proto_lookup key m = None ↔ key ∉ proto_keys m.
Proof.
  induction m as [|[k v] m IH]; simpl.
  - split; [intros _; apply not_elem_of_nil | done].
  - destruct (decide (k = key)) as [->|Hne].
    + split; [done|]. intros H. destruct H. apply list_elem_of_here.
    + rewrite IH. unfold proto_keys. simpl. rewrite not_elem_of_cons.
      split; [by split | by intros [_ ?]].
Qed.

Lemma for_items_ext {V S : Type} (f g : string → V → S → res S)
    (items : ProtoMap V) (s : S) :
  (∀ name x s', (name, x) ∈ items → f name x s' = g name x s') →
  for_items f items s = for_items g items s.
Proof.
  revert s. induction items as [|[n x] items IH]; intros s Hext; simpl; [done|].
  rewrite (Hext n x s) by apply list_elem_of_here.
  destruct (g n x s); [|done].
  apply IH. intros name y s' Hin. apply Hext. by apply list_elem_of_further.
Qed.

Lemma insert_loop_dom {V A : Type} (resolve : string → V → res A)
    (items : ProtoMap V) (acc args : gmap string A) (k : string) :
  for_items
    (λ name spec (acc : gmap string A),
       v ← resolve name spec; Ok (<[name := v]> acc)) items acc = Ok args →
  is_Some (args !! k) ↔ is_Some (acc !! k) ∨ k ∈ proto_keys items.
Proof.
  revert acc. induction items as [|[n x] items IH]; intros acc Hrun.
  - simpl in Hrun. inversion Hrun; subst. unfold proto_keys. simpl.
    split; [by left|]. intros [H|H]; [done|]. by apply elem_of_nil in H.
  - simpl in Hrun. destruct (resolve n x) as [v|e] eqn:Hv; res_simpl; [|done].
    rewrite (IH _ Hrun). unfold proto_keys. simpl. rewrite elem_of_cons.
    destruct (decide (n = k)) as [->|Hne].
    + rewrite lookup_insert_eq. split; [intros _; right; by left|].
      intros _. left. by eexists.
    + rewrite lookup_insert_ne by done. split.
      * intros [H|H]; [by left | right; by right].
      * intros [H|[H|H]]; [by left | congruence | by right].
Qed.

(** ** The store *)

Lemma put_parent_inputs_spec {PyValue : Type} (d : Dict PyValue)
    (s : IOStore PyValue) :
  task_output_data (put_parent_inputs d s) = task_output_data s
  ∧ ∀ k,
      parent_input_data (put_parent_inputs d s) !! k =
        match d !! k with
        | Some v => Some v
        | None => parent_input_data s !! k
        end.
Proof.
  unfold put_parent_inputs.
  apply (map_fold_weak_ind
    (λ (r : IOStore PyValue) (m : Dict PyValue),
       task_output_data r = task_output_data s
       ∧ ∀ k,
           parent_input_data r !! k =
             match m !! k with
             | Some v => Some v
             | None => parent_input_data s !! k
             end)).
  - split; [done|]. intros k. by rewrite lookup_empty.
  - intros i x m r Hi [Ht Hp]. split; [done|]. intros k. simpl.
    destruct (decide (i = k)) as [->|Hne].
    + by rewrite !lookup_insert_eq.
    + rewrite !lookup_insert_ne by done. apply Hp.
Qed.

Lemma store_after_parent {PyValue Pb2Value Runner : Type}
    (s : IOStore PyValue) (ds : list (Dispatch PyValue Pb2Value Runner)) :
  parent_input_data (store_after s ds) = parent_input_data s.
Proof.
  revert s. induction ds as [|d ds IH]; intros s; [done|].
  rewrite store_after_cons, IH. unfold write_outputs.
  by destruct (put_task_outputs_spec (dispatch_task d) (dispatch_outputs d) s).
Qed.

Lemma store_after_other {PyValue Pb2Value Runner : Type}
    (s : IOStore PyValue) (ds : list (Dispatch PyValue Pb2Value Runner))
    (t k : string) :
  t ∉ map dispatch_task ds →
  task_output_data (store_after s ds) !! (t, k) = task_output_data s !! (t, k).
Proof.
  revert s. induction ds as [|d ds IH]; intros s Hout; [done|].
  simpl in Hout. apply not_elem_of_cons in Hout as [Hne Hout].
  rewrite store_after_cons, (IH _ Hout). unfold write_outputs.
  destruct (put_task_outputs_spec (dispatch_task d) (dispatch_outputs d) s)
    as [_ Hlook].
  rewrite Hlook. by rewrite decide_False.
Qed.

Lemma store_after_produced {PyValue Pb2Value Runner : Type}
    (s : IOStore PyValue) (ds : list (Dispatch PyValue Pb2Value Runner))
    (d : Dispatch PyValue Pb2Value Runner) (k : string) (v : PyValue) :
  NoDup (map dispatch_task ds) →
  d ∈ ds →
  dispatch_outputs d !! k = Some v →
  task_output_data (store_after s ds) !! (dispatch_task d, k) = Some v.
Proof.
  revert s. induction ds as [|d0 ds IH]; intros s Hnd Hin Hv.
  - by apply elem_of_nil in Hin.
  - simpl in Hnd. apply NoDup_cons in Hnd as [Hfresh Hnd].
    rewrite store_after_cons.
    apply elem_of_cons in Hin as [->|Hin].
    + rewrite (store_after_other _ _ _ _ Hfresh). unfold write_outputs.
      destruct (put_task_outputs_spec (dispatch_task d0) (dispatch_outputs d0) s)
        as [_ Hlook].
      rewrite Hlook, decide_True by done. by rewrite Hv.
    + by apply IH.
Qed.

(** ** [join_user_inputs_and_defaults], once more *)

(** The heap after the call: one new object, the merged dictionary. *)
Lemma join_heap_spec {PyValue Pb2Value : Type}
    (pb2_value_to_python : Pb2Value → PyValue)
    (h : Heap PyValue) (dag_arguments : loc) (user : Dict PyValue)
    (dag_inputs_spec : ComponentInputsSpec Pb2Value)
    (result : loc) (h' : Heap PyValue) :
  h !! dag_arguments = Some user →
  join_user_inputs_and_defaults pb2_value_to_python h dag_arguments
    dag_inputs_spec = (result, h') →
  h !! result = None
  ∧ ∃ merged,
      h' !! result = Some merged
      ∧ (∀ k, merged !! k =
           match user !! k with
           | Some v => Some v
           | None =>
               (λ ps, pb2_value_to_python (default_value ps))
                 <$> proto_lookup k (input_parameters dag_inputs_spec)
           end)
      ∧ (∀ l, l ≠ result → h' !! l = h !! l).
Proof.
  intros Huser Hjoin. unfold join_user_inputs_and_defaults, deepcopy in Hjoin.
  inversion Hjoin as [[Hres Hh']]. clear Hjoin.
  rewrite (heap_dict_Some _ _ _ Huser).
  set (copied := fresh (dom h)).
  assert (h !! copied = None) as Hfresh.
  { apply not_elem_of_dom. apply is_fresh. }
  split; [exact Hfresh|].
  destruct (fill_defaults_spec pb2_value_to_python
              (input_parameters dag_inputs_spec) copied
              (<[copied := user]> h) user) as (merged & Hm & Hk & Hl).
  { by rewrite lookup_insert_eq. }
  exists merged. split; [exact Hm|]. split; [exact Hk|].
  intros l Hne. rewrite Hl by done. by rewrite lookup_insert_ne.
Qed.

(** X1.  The keys of the dictionary [join_user_inputs_and_defaults]
    returns are the keys of the user's dictionary and the names of the
    declared parameters, and no other. *)
Theorem join_user_inputs_and_defaults_keys {PyValue Pb2Value : Type}
    (pb2_value_to_python : Pb2Value → PyValue)
    (h : Heap PyValue) (dag_arguments : loc) (user : Dict PyValue)
    (dag_inputs_spec : ComponentInputsSpec Pb2Value)
    (result : loc) (h' : Heap PyValue) :
  h !! dag_arguments = Some user →
  join_user_inputs_and_defaults pb2_value_to_python h dag_arguments
    dag_inputs_spec = (result, h') →
  ∃ merged,
    h' !! result = Some merged
    ∧ ∀ k, is_Some (merged !! k) ↔
           is_Some (user !! k)
           ∨ k ∈ proto_keys (input_parameters dag_inputs_spec).
Proof.
  intros Huser Hjoin.
  destruct (join_heap_spec _ _ _ _ _ _ _ Huser Hjoin)
    as (_ & merged & Hm & Hk & _).
  exists merged. split; [exact Hm|]. intros k. rewrite Hk.
  destruct (user !! k) as [v|] eqn:Hu.
  - split; [intros _; left; by eexists | intros _; by eexists].
  - destruct (proto_lookup k (input_parameters dag_inputs_spec)) as [ps|] eqn:Hp.
    + simpl. split; [|intros _; by eexists].
      intros _. right. apply dec_stable. intros Hout.
      apply proto_lookup_None in Hout. congruence.
    + simpl. apply proto_lookup_None in Hp. split.
      * by intros [? ?].
      * intros [[? ?]|Hin]; [done | by destruct Hp].
Qed.

(** X2.  Filling in the defaults twice is filling them in once: a second
    call of [join_user_inputs_and_defaults] on the result of the first,
    with the same declared parameters, returns a dictionary with the same
    items. *)
Theorem join_user_inputs_and_defaults_idempotent {PyValue Pb2Value : Type}
    (pb2_value_to_python : Pb2Value → PyValue)
    (h : Heap PyValue) (dag_arguments : loc) (user : Dict PyValue)
    (dag_inputs_spec : ComponentInputsSpec Pb2Value)
    (r1 r2 : loc) (h1 h2 : Heap PyValue) :
  h !! dag_arguments = Some user →
  join_user_inputs_and_defaults pb2_value_to_python h dag_arguments
    dag_inputs_spec = (r1, h1) →
  join_user_inputs_and_defaults pb2_value_to_python h1 r1
    dag_inputs_spec = (r2, h2) →
  r2 ≠ r1 ∧ h2 !! r2 = h1 !! r1 ∧ h2 !! r1 = h1 !! r1.
Proof.
  intros Huser H1 H2.
  destruct (join_heap_spec _ _ _ _ _ _ _ Huser H1)
    as (_ & merged1 & Hm1 & Hk1 & _).
  destruct (join_heap_spec _ _ _ _ _ _ _ Hm1 H2)
    as (Hfresh & merged2 & Hm2 & Hk2 & Hl2).
  assert (r2 ≠ r1) as Hne by congruence.
  split; [exact Hne|]. split; [|by apply Hl2].
  rewrite Hm1, Hm2. f_equal. apply map_eq. intros k.
  rewrite Hk2, Hk1. destruct (user !! k); [done|].
  by destruct (proto_lookup k (input_parameters dag_inputs_spec)).
Qed.

(** ** [run_dag], once more *)

Section run_dag_state.
Context {PyValue Pb2Value Runner World : Type}.
Variable pb2_value_to_python : Pb2Value → PyValue.
Variable topological_sort_tasks :
  ProtoMap (PipelineTaskSpec Pb2Value) → res (list string).
Variable run_single_task_implementation :
  Dispatcher PyValue Pb2Value Runner World.
Variable cfg : RunConfig Pb2Value Runner.

(** The loop writes outputs of dispatches, and nothing else. *)
Lemma run_tasks_store (dag_spec : DagSpec Pb2Value) (order : list string)
    (st : RunState PyValue Pb2Value Runner World) r st' :
  run_tasks pb2_value_to_python run_single_task_implementation cfg dag_spec
    order st = (r, st') →
  heap st' = heap st
  ∧ ∃ written : list (Dispatch PyValue Pb2Value Runner),
      io_store st' = store_after (io_store st) written.
Proof.
  intros Hrun.
  apply run_tasks_trace in Hrun
    as (done & rest & _ & Hheap & _ & _ & _ & Hout).
  split; [exact Hheap|].
  destruct r as [[[| |other] [tf|]]|e]; try done.
  - destruct Hout as (_ & _ & Hst). by exists done.
  - destruct Hout as (pre & d & _ & _ & _ & Hst). by exists pre.
  - destruct Hout as [(_ & Hst & _)|(pre & d & n & _ & _ & _ & Hst)].
    + by exists done.
    + by exists pre.
Qed.

Lemma run_dag_cases_state (dag_component_spec : ComponentSpec Pb2Value)
    (dag_arguments : loc) (st : RunState PyValue Pb2Value Runner World) r st' :
  run_dag pb2_value_to_python topological_sort_tasks
    run_single_task_implementation cfg dag_component_spec dag_arguments st
    = (r, st') →
  (∃ e, topological_sort_tasks (tasks (component_dag dag_component_spec))
          = Raise e
        ∧ r = Raise e
        ∧ st' = prepare_io_store pb2_value_to_python dag_component_spec
                  dag_arguments st)
  ∨ (∃ sorted_tasks,
       topological_sort_tasks (tasks (component_dag dag_component_spec))
         = Ok sorted_tasks
       ∧ run_tasks pb2_value_to_python run_single_task_implementation cfg
           (component_dag dag_component_spec) (rev sorted_tasks)
           (prepare_io_store pb2_value_to_python dag_component_spec
              dag_arguments st) = (r, st')).
Proof.
  unfold run_dag. intros Hrun.
  destruct (topological_sort_tasks (tasks (component_dag dag_component_spec)))
    as [sorted|e].
  - right. by exists sorted.
  - left. exists e. by inversion Hrun.
Qed.

(** The state after a run has the heap of the prepared state, and a store
    that is the prepared store with outputs of dispatches written to it. *)
Lemma run_dag_state (dag_component_spec : ComponentSpec Pb2Value)
    (dag_arguments : loc) (st : RunState PyValue Pb2Value Runner World) r st' :
  run_dag pb2_value_to_python topological_sort_tasks
    run_single_task_implementation cfg dag_component_spec dag_arguments st
    = (r, st') →
  heap st' =
    heap (prepare_io_store pb2_value_to_python dag_component_spec
            dag_arguments st)
  ∧ ∃ written : list (Dispatch PyValue Pb2Value Runner),
      io_store st' =
        store_after
          (io_store (prepare_io_store pb2_value_to_python dag_component_spec
                       dag_arguments st)) written.
Proof.
  intros [(e & _ & _ & ->)|(sorted & _ & Hrun)]%run_dag_cases_state.
  - split; [done|]. by exists [].
  - by apply run_tasks_store in Hrun.
Qed.
End run_dag_state.

(** X3.  Whatever the outcome of [run_dag] (a status, or an exception of
    the sort or of a task), the parent inputs of the store are then: the
    user's value for a key of the user's dictionary, else the converted
    default for a declared parameter, else what the store had before.
    The tasks never change a parent input. *)
Theorem run_dag_seeds_parent_inputs {PyValue Pb2Value Runner World : Type}
    (pb2_value_to_python : Pb2Value → PyValue)
    (topological_sort_tasks :
       ProtoMap (PipelineTaskSpec Pb2Value) → res (list string))
    (run_single_task_implementation : Dispatcher PyValue Pb2Value Runner World)
    (cfg : RunConfig Pb2Value Runner)
    (dag_component_spec : ComponentSpec Pb2Value) (dag_arguments : loc)
    (user : Dict PyValue)
    (st st' : RunState PyValue Pb2Value Runner World)
    (r : res (Status * option string)) :
  heap st !! dag_arguments = Some user →
  run_dag pb2_value_to_python topological_sort_tasks
    run_single_task_implementation cfg dag_component_spec dag_arguments st
    = (r, st') →
  ∀ k,
    parent_input_data (io_store st') !! k =
      match user !! k with
      | Some v => Some v
      | None =>
          match proto_lookup k
                  (input_parameters (input_definitions dag_component_spec)) with
          | Some ps => Some (pb2_value_to_python (default_value ps))
          | None => parent_input_data (io_store st) !! k
          end
      end.
Proof.
  intros Huser Hrun k.
  destruct (run_dag_state _ _ _ _ _ _ _ _ _ Hrun) as (_ & written & ->).
  rewrite store_after_parent. unfold prepare_io_store.
  destruct (join_user_inputs_and_defaults pb2_value_to_python (heap st)
              dag_arguments (input_definitions dag_component_spec))
    as [result h'] eqn:Hjoin.
  destruct (join_heap_spec _ _ _ _ _ _ _ Huser Hjoin)
    as (_ & merged & Hm & Hk & _).
  simpl. rewrite (heap_dict_Some _ _ _ Hm).
  destruct (put_parent_inputs_spec merged (io_store st)) as [_ Hp].
  rewrite Hp, Hk. destruct (user !! k); [done|].
  by destruct (proto_lookup k _).
Qed.

(** X4.  [run_dag] leaves the dictionary of the caller, and every other
    object that was on the heap, as it was, whatever its outcome: the heap
    after the run is the heap before it with one new object, the merged
    dictionary. *)
Theorem run_dag_keeps_user_arguments {PyValue Pb2Value Runner World : Type}
    (pb2_value_to_python : Pb2Value → PyValue)
    (topological_sort_tasks :
       ProtoMap (PipelineTaskSpec Pb2Value) → res (list string))
    (run_single_task_implementation : Dispatcher PyValue Pb2Value Runner World)
    (cfg : RunConfig Pb2Value Runner)
    (dag_component_spec : ComponentSpec Pb2Value) (dag_arguments : loc)
    (user : Dict PyValue)
    (st st' : RunState PyValue Pb2Value Runner World)
    (r : res (Status * option string)) :
  heap st !! dag_arguments = Some user →
  run_dag pb2_value_to_python topological_sort_tasks
    run_single_task_implementation cfg dag_component_spec dag_arguments st
    = (r, st') →
  heap st' !! dag_arguments = Some user
  ∧ ∃ new,
      heap st !! new = None
      ∧ is_Some (heap st' !! new)
      ∧ ∀ l, l ≠ new → heap st' !! l = heap st !! l.
Proof.
  intros Huser Hrun.
  destruct (run_dag_state _ _ _ _ _ _ _ _ _ Hrun) as (-> & _).
  unfold prepare_io_store.
  destruct (join_user_inputs_and_defaults pb2_value_to_python (heap st)
              dag_arguments (input_definitions dag_component_spec))
    as [result h'] eqn:Hjoin.
  destruct (join_heap_spec _ _ _ _ _ _ _ Huser Hjoin)
    as (Hfresh & merged & Hm & _ & Hl).
  simpl. split.
  - rewrite Hl; [done | congruence].
  - exists result. split; [done|]. split; [by eexists | exact Hl].
Qed.

(** X5.  The loop over the tasks composes: going through [l1 ++ l2] is
    going through [l1] and, when that returns [(SUCCESS, None)], through
    [l2] from the state it left; a failure or an exception in [l1] is the
    outcome, in the state it left, and no task of [l2] is looked at. *)
Theorem run_tasks_app {PyValue Pb2Value Runner World : Type}
    (pb2_value_to_python : Pb2Value → PyValue)
    (run_single_task_implementation : Dispatcher PyValue Pb2Value Runner World)
    (cfg : RunConfig Pb2Value Runner) (dag_spec : DagSpec Pb2Value)
    (l1 l2 : list string) (st : RunState PyValue Pb2Value Runner World) :
  run_tasks pb2_value_to_python run_single_task_implementation cfg dag_spec
    (l1 ++ l2) st =
  match run_tasks pb2_value_to_python run_single_task_implementation cfg
          dag_spec l1 st with
  | (Ok (SUCCESS, None), st1) =>
      run_tasks pb2_value_to_python run_single_task_implementation cfg
        dag_spec l2 st1
  | outcome => outcome
  end.
Proof.
  revert st. induction l1 as [|t l1 IH]; intros st; simpl; [done|].
  destruct (prepare_task pb2_value_to_python cfg dag_spec t (io_store st))
    as [call|e]; [|done].
  destruct (run_single_task_implementation (world st) call)
    as [[outs status] w].
  destruct status; [apply IH | done | done].
Qed.

(** X6.  In a run of [run_dag] in which a dispatched task reports a status
    that is neither [SUCCESS] nor [FAILURE], [run_dag] raises the
    [ValueError] "Got unknown task status: " with the name of the status;
    that dispatch is the last one, the dispatches before it succeeded, and
    its outputs are not written to the store. *)
Theorem run_dag_unknown_status {PyValue Pb2Value Runner World : Type}
    (pb2_value_to_python : Pb2Value → PyValue)
    (topological_sort_tasks :
       ProtoMap (PipelineTaskSpec Pb2Value) → res (list string))
    (run_single_task_implementation : Dispatcher PyValue Pb2Value Runner World)
    (cfg : RunConfig Pb2Value Runner)
    (dag_component_spec : ComponentSpec Pb2Value) (dag_arguments : loc)
    (st st' : RunState PyValue Pb2Value Runner World)
    (r : res (Status * option string))
    (done : list (Dispatch PyValue Pb2Value Runner))
    (d : Dispatch PyValue Pb2Value Runner) (name : string) :
  run_dag pb2_value_to_python topological_sort_tasks
    run_single_task_implementation cfg dag_component_spec dag_arguments st
    = (r, st') →
  dispatched st' = dispatched st ++ done →
  d ∈ done →
  dispatch_status d = OTHER_STATUS name →
  r = Raise (ValueError ("Got unknown task status: " +:+ name))
  ∧ ∃ pre,
      done = pre ++ [d]
      ∧ Forall (λ p, dispatch_status p = SUCCESS) pre
      ∧ io_store st' =
          store_after
            (io_store (prepare_io_store pb2_value_to_python
                         dag_component_spec dag_arguments st))
            pre.
Proof.
  intros Hrun Hdisp Hin Hother.
  apply run_dag_cases in Hrun as [(e & _ & _ & Hsame)|(sorted & Hsort & Hrun)].
  { rewrite Hsame in Hdisp. destruct (no_new_dispatch _ _ _ Hdisp Hin). }
  apply run_tasks_trace in Hrun
    as (done' & rest & Hd' & _ & Hord & _ & Hinit & Hout).
  rewrite prepare_io_store_dispatched, Hdisp in Hd'.
  apply app_inv_head in Hd'. subst done'.
  assert (Forall (λ p, dispatch_status p = SUCCESS) done → False) as Hall.
  { intros Hall. rewrite Forall_forall in Hall. specialize (Hall d Hin).
    simpl in Hall. congruence. }
  assert (∀ pre d1, done = pre ++ [d1] → d = d1) as Hlast.
  { intros pre d1 ->. apply elem_of_app in Hin as [Hin|Hin].
    - pose proof (all_but_last_succeeded pre d1 Hinit) as Hpre.
      rewrite Forall_forall in Hpre. specialize (Hpre d Hin).
      simpl in Hpre. congruence.
    - by apply list_elem_of_singleton in Hin. }
  destruct r as [[[| |other] [tf|]]|e]; try done.
  - destruct Hout as (_ & Hs & _). destruct (Hall Hs).
  - destruct Hout as (pre & d1 & Heq & _ & Hs & _).
    rewrite <- (Hlast pre d1 Heq) in Hs. congruence.
  - destruct Hout as [(Hs & _)|(pre & d1 & n & Heq & Hs & -> & Hst)].
    + destruct (Hall Hs).
    + pose proof (Hlast pre d1 Heq) as <-.
      rewrite Hother in Hs. inversion Hs; subst n.
      split; [done|]. exists pre. subst done.
      split; [done|]. split; [by eapply all_but_last_succeeded | done].
Qed.

(** X7.  When [run_dag] raises an exception although every dispatched task
    reported [SUCCESS], either the sort raised it and no task was
    dispatched, or the preparation of the next task of the loop (its
    component, its executor, its arguments) raised it: that task is not
    dispatched, nor is any task after it, and the store keeps the outputs
    of the tasks dispatched before. *)
Theorem run_dag_raises_before_dispatch {PyValue Pb2Value Runner World : Type}
    (pb2_value_to_python : Pb2Value → PyValue)
    (topological_sort_tasks :
       ProtoMap (PipelineTaskSpec Pb2Value) → res (list string))
    (run_single_task_implementation : Dispatcher PyValue Pb2Value Runner World)
    (cfg : RunConfig Pb2Value Runner)
    (dag_component_spec : ComponentSpec Pb2Value) (dag_arguments : loc)
    (st st' : RunState PyValue Pb2Value Runner World)
    (e : exn) (done : list (Dispatch PyValue Pb2Value Runner)) :
  run_dag pb2_value_to_python topological_sort_tasks
    run_single_task_implementation cfg dag_component_spec dag_arguments st
    = (Raise e, st') →
  dispatched st' = dispatched st ++ done →
  Forall (λ d, dispatch_status d = SUCCESS) done →
  (topological_sort_tasks (tasks (component_dag dag_component_spec)) = Raise e
   ∧ done = [])
  ∨ (∃ sorted_tasks t rest,
       topological_sort_tasks (tasks (component_dag dag_component_spec))
         = Ok sorted_tasks
       ∧ rev sorted_tasks = map dispatch_task done ++ t :: rest
       ∧ prepare_task pb2_value_to_python cfg
           (component_dag dag_component_spec) t (io_store st') = Raise e
       ∧ io_store st' =
           store_after
             (io_store (prepare_io_store pb2_value_to_python
                          dag_component_spec dag_arguments st))
             done).
Proof.
  intros Hrun Hdisp Hall.
  apply run_dag_cases in Hrun as [(e' & Hsort & He & Hsame)|(sorted & Hsort & Hrun)].
  { left. inversion He; subst e'. split; [done|].
    rewrite Hsame in Hdisp. rewrite <- (app_nil_r (dispatched st)) in Hdisp at 1.
    by apply app_inv_head in Hdisp. }
  right.
  apply run_tasks_trace in Hrun
    as (done' & rest & Hd' & _ & Hord & _ & _ & Hout).
  rewrite prepare_io_store_dispatched, Hdisp in Hd'.
  apply app_inv_head in Hd'. subst done'.
  destruct Hout as [(_ & Hst & t & rest' & -> & Hprep)
                   |(pre & d & n & -> & Hs & _)].
  - by exists sorted, t, rest'.
  - apply Forall_app in Hall as [_ Hd]. rewrite Forall_singleton in Hd.
    congruence.
Qed.

(** What it takes for a task to get to the dispatch, and the call made
    then. *)
Lemma prepare_task_Ok {PyValue Pb2Value Runner : Type}
    (pb2_value_to_python : Pb2Value → PyValue)
    (cfg : RunConfig Pb2Value Runner) (dag_spec : DagSpec Pb2Value)
    (task_name : string) (io_store : IOStore PyValue)
    (call : TaskCall PyValue Pb2Value Runner) :
  prepare_task pb2_value_to_python cfg dag_spec task_name io_store = Ok call ↔
  ∃ component_spec label image command task_arguments,
    components cfg !! component_ref_name (dag_task dag_spec task_name)
      = Some component_spec
    ∧ implementation component_spec = executor_label label
    ∧ executors cfg !! label = Some (container image command)
    ∧ make_task_arguments pb2_value_to_python
        (inputs (dag_task dag_spec task_name)) io_store = Ok task_arguments
    ∧ call =
        {| call_pipeline_resource_name := pipeline_resource_name cfg;
           call_component_name :=
             component_ref_name (dag_task dag_spec task_name);
           call_component_spec := component_spec;
           call_executor_spec := container image command;
           call_arguments := task_arguments;
           call_pipeline_root := pipeline_root cfg;
           call_runner := runner cfg;
           call_raise_on_error := false;
           call_block_input_artifact := false;
           call_unique_pipeline_id := unique_pipeline_id cfg |}.
Proof.
  unfold prepare_task, subscript. split.
  - intros H.
    destruct (components cfg !! component_ref_name (dag_task dag_spec task_name))
      as [c|] eqn:Hc; res_simpl; [|done].
    destruct (implementation c) as [d|label|] eqn:Hi; res_simpl; try done.
    destruct (executors cfg !! label) as [ex|] eqn:Hex; res_simpl; [|done].
    destruct ex as [image command|uri| | |]; res_simpl; try done.
    destruct (make_task_arguments pb2_value_to_python
                (inputs (dag_task dag_spec task_name)) io_store)
      as [args|e] eqn:Hargs; res_simpl; [|done].
    inversion H; subst call. by exists c, label, image, command, args.
  - intros (c & label & image & command & args & Hc & Hi & Hex & Hargs & ->).
    rewrite Hc. res_simpl. rewrite Hi. res_simpl. rewrite Hex. res_simpl.
    by rewrite Hargs.
Qed.

(** X8.  Every dispatch of a run of [run_dag] is the dispatch of a task
    whose component is in [components] and is implemented by an executor,
    and whose executor is in [executors] and is a container: an importer,
    another kind of executor or a nested DAG is never dispatched.  The call
    asks not to raise on error and not to block input artifacts, carries
    the pipeline name, root, runner and unique identifier of the run, and
    its arguments are those [make_task_arguments] makes of the inputs of
    the task in the store that holds the outputs of the dispatches before
    it. *)
Theorem run_dag_dispatches_only_containers
    {PyValue Pb2Value Runner World : Type}
    (pb2_value_to_python : Pb2Value → PyValue)
    (topological_sort_tasks :
       ProtoMap (PipelineTaskSpec Pb2Value) → res (list string))
    (run_single_task_implementation : Dispatcher PyValue Pb2Value Runner World)
    (cfg : RunConfig Pb2Value Runner)
    (dag_component_spec : ComponentSpec Pb2Value) (dag_arguments : loc)
    (st st' : RunState PyValue Pb2Value Runner World)
    (r : res (Status * option string))
    (done : list (Dispatch PyValue Pb2Value Runner))
    (i : nat) (d : Dispatch PyValue Pb2Value Runner) :
  run_dag pb2_value_to_python topological_sort_tasks
    run_single_task_implementation cfg dag_component_spec dag_arguments st
    = (r, st') →
  dispatched st' = dispatched st ++ done →
  done !! i = Some d →
  let task := dag_task (component_dag dag_component_spec) (dispatch_task d) in
  let call := dispatch_call d in
  ∃ label image command,
    components cfg !! component_ref_name task = Some (call_component_spec call)
    ∧ implementation (call_component_spec call) = executor_label label
    ∧ executors cfg !! label = Some (container image command)
    ∧ call_executor_spec call = container image command
    ∧ call_component_name call = component_ref_name task
    ∧ make_task_arguments pb2_value_to_python (inputs task)
        (store_after
           (io_store (prepare_io_store pb2_value_to_python
                        dag_component_spec dag_arguments st))
           (take i done)) = Ok (call_arguments call)
    ∧ call_raise_on_error call = false
    ∧ call_block_input_artifact call = false
    ∧ call_unique_pipeline_id call = unique_pipeline_id cfg
    ∧ call_pipeline_resource_name call = pipeline_resource_name cfg
    ∧ call_pipeline_root call = pipeline_root cfg
    ∧ call_runner call = runner cfg.
Proof.
  intros Hrun Hdisp Hd task call.
  apply run_dag_cases in Hrun as [(e & _ & _ & Hsame)|(sorted & Hsort & Hrun)].
  { rewrite Hsame in Hdisp.
    apply list_elem_of_lookup_2 in Hd.
    destruct (no_new_dispatch _ _ _ Hdisp Hd). }
  apply run_tasks_trace in Hrun
    as (done' & rest & Hd' & _ & _ & Hvalid & _ & _).
  rewrite prepare_io_store_dispatched, Hdisp in Hd'.
  apply app_inv_head in Hd'. subst done'.
  destruct (Hvalid i d Hd) as [Hprep _].
  apply prepare_task_Ok in Hprep
    as (c & label & image & command & args & Hc & Hi & Hex & Hargs & Hcall).
  exists label, image, command. subst call. rewrite Hcall. simpl.
  repeat split; done.
Qed.

(** X9.  After a run of [run_dag] that returns [(SUCCESS, None)], with a
    sort that lists no task twice, every output a dispatched task returned
    is in the store under (task name, output key): no later task has
    replaced it, and a parameter output of the DAG that selects it resolves
    to that value. *)
Theorem run_dag_outputs_persist {PyValue Pb2Value Runner World : Type}
    (pb2_value_to_python : Pb2Value → PyValue)
    (topological_sort_tasks :
       ProtoMap (PipelineTaskSpec Pb2Value) → res (list string))
    (run_single_task_implementation : Dispatcher PyValue Pb2Value Runner World)
    (cfg : RunConfig Pb2Value Runner)
    (dag_component_spec : ComponentSpec Pb2Value) (dag_arguments : loc)
    (st st' : RunState PyValue Pb2Value Runner World)
    (done : list (Dispatch PyValue Pb2Value Runner))
    (sorted_tasks : list string)
    (d : Dispatch PyValue Pb2Value Runner) (key : string) (v : PyValue) :
  run_dag pb2_value_to_python topological_sort_tasks
    run_single_task_implementation cfg dag_component_spec dag_arguments st
    = (Ok (SUCCESS, None), st') →
  dispatched st' = dispatched st ++ done →
  topological_sort_tasks (tasks (component_dag dag_component_spec))
    = Ok sorted_tasks →
  NoDup sorted_tasks →
  d ∈ done →
  dispatch_outputs d !! key = Some v →
  task_output_data (io_store st') !! (dispatch_task d, key) = Some v
  ∧ resolve_output_parameter (value_from_parameter (dispatch_task d) key)
      (io_store st') = Ok v.
Proof.
  intros Hrun Hdisp Hsort Hnd Hin Hv.
  apply run_dag_cases in Hrun as [(e & _ & He & _)|(sorted & Hsort' & Hrun)].
  { discriminate He. }
  rewrite Hsort in Hsort'. inversion Hsort'; subst sorted. clear Hsort'.
  apply run_tasks_trace in Hrun
    as (done' & rest & Hd' & _ & Hord & _ & _ & Hout).
  rewrite prepare_io_store_dispatched, Hdisp in Hd'.
  apply app_inv_head in Hd'. subst done'.
  destruct Hout as (-> & _ & Hst). rewrite app_nil_r in Hord.
  assert (task_output_data (io_store st') !! (dispatch_task d, key) = Some v)
    as Hlook.
  { rewrite Hst. apply store_after_produced; [|done|done].
    rewrite <- Hord. apply NoDup_ListNoDup, NoDup_rev.
    by apply NoDup_ListNoDup. }
  split; [exact Hlook|]. simpl. by apply get_task_output_Ok.
Qed.

(** The loop raises what the preparation of a task raises, in the state
    the tasks before it left. *)
Lemma run_tasks_raise_after_prefix {PyValue Pb2Value Runner World : Type}
    (pb2_value_to_python : Pb2Value → PyValue)
    (run_single_task_implementation : Dispatcher PyValue Pb2Value Runner World)
    (cfg : RunConfig Pb2Value Runner) (dag_spec : DagSpec Pb2Value)
    (pre rest : list string) (t : string) (e : exn)
    (st st1 : RunState PyValue Pb2Value Runner World) :
  run_tasks pb2_value_to_python run_single_task_implementation cfg dag_spec
    pre st = (Ok (SUCCESS, None), st1) →
  prepare_task pb2_value_to_python cfg dag_spec t (io_store st1) = Raise e →
  run_tasks pb2_value_to_python run_single_task_implementation cfg dag_spec
    (pre ++ t :: rest) st = (Raise e, st1).
Proof.
  revert st. induction pre as [|t0 pre IH]; intros st Hpre Hprep; simpl in *.
  - inversion Hpre; subst st1. by rewrite Hprep.
  - destruct (prepare_task pb2_value_to_python cfg dag_spec t0 (io_store st))
      as [call|e0]; [|done].
    destruct (run_single_task_implementation (world st) call)
      as [[outs status] w].
    destruct status; [by apply IH | done | done].
Qed.

Lemma subscript_Some {V : Type} (d : gmap string V) (key : string) (v : V) :
  d !! key = Some v → subscript d key = Ok v.
Proof. unfold subscript. by intros ->. Qed.

Lemma subscript_None {V : Type} (d : gmap string V) (key : string) :
  d !! key = None → subscript d key = Raise (KeyError key).
Proof. unfold subscript. by intros ->. Qed.

(** X10.  When the loop of [run_dag] gets to a task it cannot dispatch,
    [run_dag] raises and the state is the one the tasks before left: the
    task is not dispatched.  The exception is, in this order of
    precedence: the [KeyError] of a component name that is not in
    [components]; [NotImplementedError] for a component that is a nested
    DAG and [ValueError] for one with no implementation set; the
    [KeyError] of an executor label that is not in [executors];
    [NotImplementedError] for an importer executor and [ValueError] for an
    executor that is neither an importer nor a container; and, for a
    container, the exception of [make_task_arguments] on the inputs of the
    task. *)
Theorem run_dag_rejects_task {PyValue Pb2Value Runner World : Type}
    (pb2_value_to_python : Pb2Value → PyValue)
    (topological_sort_tasks :
       ProtoMap (PipelineTaskSpec Pb2Value) → res (list string))
    (run_single_task_implementation : Dispatcher PyValue Pb2Value Runner World)
    (cfg : RunConfig Pb2Value Runner)
    (dag_component_spec : ComponentSpec Pb2Value) (dag_arguments : loc)
    (st st1 : RunState PyValue Pb2Value Runner World)
    (sorted_tasks pre rest : list string) (t : string) :
  topological_sort_tasks (tasks (component_dag dag_component_spec))
    = Ok sorted_tasks →
  rev sorted_tasks = pre ++ t :: rest →
  run_tasks pb2_value_to_python run_single_task_implementation cfg
    (component_dag dag_component_spec) pre
    (prepare_io_store pb2_value_to_python dag_component_spec dag_arguments st)
    = (Ok (SUCCESS, None), st1) →
  let task := dag_task (component_dag dag_component_spec) t in
  let raises e :=
    run_dag pb2_value_to_python topological_sort_tasks
      run_single_task_implementation cfg dag_component_spec dag_arguments st
    = (Raise e, st1) in
  (components cfg !! component_ref_name task = None →
   raises (KeyError (component_ref_name task)))
  ∧ ∀ component_spec,
      components cfg !! component_ref_name task = Some component_spec →
      (∀ d, implementation component_spec = dag d →
         raises (NotImplementedError
           "Control flow features and pipelines in pipelines are not yet supported by local pipeline execution."))
      ∧ (implementation component_spec = implementation_not_set →
         raises (ValueError "Got unknown component implementation: None"))
      ∧ ∀ label,
          implementation component_spec = executor_label label →
          (executors cfg !! label = None → raises (KeyError label))
          ∧ (∀ uri, executors cfg !! label = Some (importer uri) →
               raises (NotImplementedError
                 "Importer is not yet supported by local pipeline execution. Found 'dsl.importer' task in pipeline."))
          ∧ (∀ executor,
               executors cfg !! label = Some executor →
               executor = resolver ∨ executor = custom_job
                 ∨ executor = spec_not_set →
               raises (ValueError
                 "Got unknown spec in ExecutorSpec. Only dsl.component and dsl.container_component are supported in local pipeline execution."))
          ∧ (∀ image command e,
               executors cfg !! label = Some (container image command) →
               make_task_arguments pb2_value_to_python (inputs task)
                 (io_store st1) = Raise e →
               raises e).
Proof.
  intros Hsort Hord Hpre task raises. subst task.
  assert (∀ e,
    prepare_task pb2_value_to_python cfg (component_dag dag_component_spec) t
      (io_store st1) = Raise e → raises e) as Hraise.
  { intros e Hprep. unfold raises, run_dag. rewrite Hsort, Hord.
    by apply run_tasks_raise_after_prefix. }
  split.
  - intros Hc. apply Hraise. unfold prepare_task. cbv zeta.
    by rewrite (subscript_None _ _ Hc).
  - intros c Hc.
    assert (∀ e,
      (label ←
         match implementation c with
         | dag _ =>
             Raise (NotImplementedError
               "Control flow features and pipelines in pipelines are not yet supported by local pipeline execution.")
         | implementation_not_set =>
             Raise (ValueError "Got unknown component implementation: None")
         | executor_label label => Ok label
         end;
       executor_spec ← subscript (executors cfg) label;
       _ ← validate_executor executor_spec;
       task_arguments ←
         make_task_arguments pb2_value_to_python
           (inputs (dag_task (component_dag dag_component_spec) t))
           (io_store st1);
       Ok {| call_pipeline_resource_name := pipeline_resource_name cfg;
             call_component_name :=
               component_ref_name
                 (dag_task (component_dag dag_component_spec) t);
             call_component_spec := c;
             call_executor_spec := executor_spec;
             call_arguments := task_arguments;
             call_pipeline_root := pipeline_root cfg;
             call_runner := runner cfg;
             call_raise_on_error := false;
             call_block_input_artifact := false;
             call_unique_pipeline_id := unique_pipeline_id cfg |})
      = Raise e → raises e) as Hstep.
    { intros e He. apply Hraise. unfold prepare_task. cbv zeta.
      rewrite (subscript_Some _ _ _ Hc). exact He. }
    split; [|split].
    + intros d Hi. apply Hstep. by rewrite Hi.
    + intros Hi. apply Hstep. by rewrite Hi.
    + intros label Hi. split; [|split; [|split]].
      * intros Hex. apply Hstep. rewrite Hi. res_simpl.
        by rewrite (subscript_None _ _ Hex).
      * intros uri Hex. apply Hstep. rewrite Hi. res_simpl.
        by rewrite (subscript_Some _ _ _ Hex).
      * intros ex Hex Hkind. apply Hstep. rewrite Hi. res_simpl.
        rewrite (subscript_Some _ _ _ Hex).
        by destruct Hkind as [->|[->| ->]].
      * intros image command e Hex Hargs. apply Hstep. rewrite Hi. res_simpl.
        rewrite (subscript_Some _ _ _ Hex). simpl. by rewrite Hargs.
Qed.

(** ** [make_task_arguments], once more *)

Lemma elem_of_concat_map {A B : Type} (f : A → list B) (l : list A)
    (a : A) (b : B) :
  a ∈ l → b ∈ f a → b ∈ concat (map f l).
Proof.
  intros Ha Hb. induction l as [|a' l IH]; simpl.
  - by apply elem_of_nil in Ha.
  - apply elem_of_app. apply elem_of_cons in Ha as [->|Ha].
    + by left.
    + right. by apply IH.
Qed.

Lemma for_items_mono {V S : Type} (f g : string → V → S → res S)
    (items : ProtoMap V) (s r : S) :
  (∀ name x s1 s2, (name, x) ∈ items →
     f name x s1 = Ok s2 → g name x s1 = Ok s2) →
  for_items f items s = Ok r → for_items g items s = Ok r.
Proof.
  revert s. induction items as [|[n x] items IH]; intros s Hmono Hrun;
    simpl in *; [done|].
  destruct (f n x s) as [s'|e] eqn:Hf; [|done].
  rewrite (Hmono n x s s' (list_elem_of_here _ _) Hf).
  apply IH; [|done].
  intros name y s1 s2 Hin. apply Hmono. by apply list_elem_of_further.
Qed.

(** X11.  [make_task_arguments] reads only the entries of the store that
    the inputs of the task name: in two stores that have the same task
    outputs for the (producer task, output key) pairs of the inputs and
    the same parent inputs for the parent names of the inputs, it returns
    the same arguments, or raises the same exception. *)
Theorem make_task_arguments_reads_named_entries {PyValue Pb2Value : Type}
    (pb2_value_to_python : Pb2Value → PyValue)
    (spec : TaskInputsSpec Pb2Value) (s1 s2 : IOStore PyValue) :
  (∀ producer key,
     (producer, key) ∈ task_output_reads spec →
     task_output_data s1 !! (producer, key)
       = task_output_data s2 !! (producer, key)) →
  (∀ name,
     name ∈ parent_input_reads spec →
     parent_input_data s1 !! name = parent_input_data s2 !! name) →
  make_task_arguments pb2_value_to_python spec s1
    = make_task_arguments pb2_value_to_python spec s2.
Proof.
  intros Hout Hparent.
  assert (∀ name x, (name, x) ∈ task_parameters spec →
            resolve_parameter_input pb2_value_to_python name x s1
            = resolve_parameter_input pb2_value_to_python name x s2) as Hp.
  { intros name x Hin. destruct x as [p k|rv|n|p|]; simpl; try done.
    - unfold get_task_output. rewrite (Hout p k); [done|].
      apply elem_of_app. left.
      apply (elem_of_concat_map parameter_output_read _ _ _ Hin).
      apply list_elem_of_here.
    - unfold get_parent_input. rewrite (Hparent n); [done|].
      apply elem_of_app. left.
      apply (elem_of_concat_map parameter_parent_read _ _ _ Hin).
      apply list_elem_of_here. }
  assert (∀ name x, (name, x) ∈ task_artifacts spec →
            resolve_artifact_input name x s1
            = resolve_artifact_input name x s2) as Ha.
  { intros name x Hin. destruct x as [p k|n|]; simpl; try done.
    - unfold get_task_output. rewrite (Hout p k); [done|].
      apply elem_of_app. right.
      apply (elem_of_concat_map artifact_output_read _ _ _ Hin).
      apply list_elem_of_here.
    - unfold get_parent_input. rewrite (Hparent n); [done|].
      apply elem_of_app. right.
      apply (elem_of_concat_map artifact_parent_read _ _ _ Hin).
      apply list_elem_of_here. }
  unfold make_task_arguments.
  rewrite (for_items_ext _
    (λ input_name input_spec (task_arguments : Dict PyValue),
       v ← resolve_parameter_input pb2_value_to_python
              input_name input_spec s2;
       Ok (<[input_name := v]> task_arguments)) (task_parameters spec) ∅).
  2:{ intros name x acc Hin. by rewrite (Hp name x Hin). }
  match goal with
  | |- context [for_items ?f (task_parameters spec) ∅] =>
      destruct (for_items f (task_parameters spec) ∅) as [a1|e]
  end; [|done].
  res_simpl. apply for_items_ext.
  intros name x acc Hin. by rewrite (Ha name x Hin).
Qed.

(** X12.  The arguments of a task do not change when the store gets more
    entries: when [make_task_arguments] returns arguments in a store, it
    returns the same arguments in every store that has the entries of that
    store. *)
Theorem make_task_arguments_stable {PyValue Pb2Value : Type}
    (pb2_value_to_python : Pb2Value → PyValue)
    (spec : TaskInputsSpec Pb2Value) (s1 s2 : IOStore PyValue)
    (args : Dict PyValue) :
  store_included s1 s2 →
  make_task_arguments pb2_value_to_python spec s1 = Ok args →
  make_task_arguments pb2_value_to_python spec s2 = Ok args.
Proof.
  intros [Hparent Hout] Hrun.
  assert (∀ p k v, get_task_output p k s1 = Ok v →
                   get_task_output p k s2 = Ok v) as Hget.
  { intros p k v. rewrite !get_task_output_Ok. intros Hv.
    by eapply lookup_weaken. }
  assert (∀ n v, get_parent_input n s1 = Ok v →
                 get_parent_input n s2 = Ok v) as Hpar.
  { intros n v. rewrite !get_parent_input_Ok. intros Hv.
    by eapply lookup_weaken. }
  apply make_task_arguments_ok_inv in Hrun as (a1 & H1 & H2).
  assert (for_items
    (λ input_name input_spec (task_arguments : Dict PyValue),
       v ← resolve_parameter_input pb2_value_to_python
              input_name input_spec s2;
       Ok (<[input_name := v]> task_arguments))
    (task_parameters spec) ∅ = Ok a1) as Hm1.
  { eapply for_items_mono; [|exact H1].
    intros name x acc acc' _ Hx. res_simpl.
    destruct (resolve_parameter_input pb2_value_to_python name x s1)
      as [v|e] eqn:Hv; [|done].
    assert (resolve_parameter_input pb2_value_to_python name x s2 = Ok v)
      as ->; [|done].
    destruct x as [p k|rv|n|p|]; simpl in *;
      [by apply Hget | done | by apply Hpar | done | done]. }
  unfold make_task_arguments. rewrite Hm1. res_simpl.
  eapply for_items_mono; [|exact H2].
  intros name x acc acc' _ Hx. res_simpl.
  destruct (resolve_artifact_input name x s1) as [v|e] eqn:Hv; [|done].
  assert (resolve_artifact_input name x s2 = Ok v) as ->; [|done].
  destruct x as [p k|n|]; simpl in *; [by apply Hget | by apply Hpar | done].
Qed.

(** X13.  The arguments [make_task_arguments] returns have one entry for
    each parameter and each artifact of the inputs of the task, and no
    other; an artifact with the name of a parameter has replaced it. *)
Theorem make_task_arguments_keys {PyValue Pb2Value : Type}
    (pb2_value_to_python : Pb2Value → PyValue)
    (spec : TaskInputsSpec Pb2Value) (io_store : IOStore PyValue)
    (args : Dict PyValue) :
  make_task_arguments pb2_value_to_python spec io_store = Ok args →
  (∀ k, is_Some (args !! k) ↔
        k ∈ proto_keys (task_parameters spec)
        ∨ k ∈ proto_keys (task_artifacts spec))
  ∧ (NoDup (proto_keys (task_artifacts spec)) →
     ∀ name input_spec,
       (name, input_spec) ∈ task_artifacts spec →
       ∃ v, resolve_artifact_input name input_spec io_store = Ok v
            ∧ args !! name = Some v).
Proof.
  intros Hrun. split.
  - apply make_task_arguments_ok_inv in Hrun as (a1 & H1 & H2).
    intros k.
    rewrite (insert_loop_dom
      (λ n x, resolve_artifact_input n x io_store) _ _ _ k H2).
    rewrite (insert_loop_dom
      (λ n x, resolve_parameter_input pb2_value_to_python n x io_store)
      _ _ _ k H1).
    rewrite lookup_empty. split.
    + intros [[[? ?]|H]|H]; [done | by left | by right].
    + intros [H|H]; [left; by right | by right].
  - intros Hnd name input_spec Hin.
    by eapply make_task_arguments_artifact_value.
Qed.

(** ** The outputs of the DAG, once more *)

(** X14.  The map [get_dag_outputs] returns has one entry for each
    declared parameter output and each declared artifact output, and no
    other, and every value in it is a task output of the store. *)
Theorem get_dag_outputs_keys_and_values {PyValue : Type}
    (spec : DagOutputsSpec) (io_store : IOStore PyValue)
    (result : Dict PyValue) :
  get_dag_outputs spec io_store = Ok result →
  (∀ key, is_Some (result !! key) ↔
          key ∈ proto_keys (output_parameters spec)
          ∨ key ∈ proto_keys (output_artifacts spec))
  ∧ (∀ key v, result !! key = Some v →
       ∃ task output_key,
         task_output_data io_store !! (task, output_key) = Some v).
Proof.
  unfold get_dag_outputs. intros Hrun.
  destruct (get_dag_output_parameters spec io_store) as [pm|e] eqn:Hp;
    res_simpl; [|done].
  destruct (get_dag_output_artifacts spec io_store) as [am|e] eqn:Ha;
    res_simpl; [|done].
  inversion Hrun; subst result. split.
  - intros key. rewrite lookup_union_is_Some.
    rewrite (insert_loop_dom (λ _ x, resolve_output_parameter x io_store)
               _ _ _ key Hp).
    rewrite (insert_loop_dom (λ _ x, resolve_output_artifact x io_store)
               _ _ _ key Ha).
    rewrite lookup_empty. split.
    + intros [[[? ?]|H]|[[? ?]|H]]; [done | by right | done | by left].
    + intros [H|H]; [right; by right | left; by right].
  - intros key v Hv. apply lookup_union_Some_raw in Hv as [Hv|[_ Hv]].
    + destruct (insert_loop_sound (λ _ x, resolve_output_artifact x io_store)
                  _ _ _ _ _ Ha Hv) as [Hempty|(a & _ & Hres)].
      { by rewrite lookup_empty in Hempty. }
      unfold resolve_output_artifact in Hres.
      destruct (artifact_selectors a) as [|sel [|sel' rest]]; try done.
      apply get_task_output_Ok in Hres. by eexists _, _.
    + destruct (insert_loop_sound (λ _ x, resolve_output_parameter x io_store)
                  _ _ _ _ _ Hp Hv) as [Hempty|(s & _ & Hres)].
      { by rewrite lookup_empty in Hempty. }
      destruct s as [t k|sels|]; simpl in Hres; try done.
      apply get_task_output_Ok in Hres. by eexists _, _.
Qed.

(** X15.  A parameter output of the DAG with no kind set raises the
    [ValueError] of an unknown kind, from [get_dag_output_parameters] and
    from [get_dag_outputs], when the parameter outputs before it resolve.
    [get_dag_outputs] extracts the parameters first: what
    [get_dag_output_parameters] raises, it raises, whatever the artifact
    outputs are. *)
Theorem get_dag_outputs_parameter_errors_first {PyValue : Type}
    (spec : DagOutputsSpec) (io_store : IOStore PyValue) :
  (∀ e, get_dag_output_parameters spec io_store = Raise e →
        get_dag_outputs spec io_store = Raise e)
  ∧ (∀ pre key post,
       output_parameters spec = pre ++ (key, output_kind_not_set) :: post →
       output_parameters_resolve pre io_store →
       get_dag_output_parameters spec io_store
         = Raise (ValueError "Got unknown 'parameter_selector_spec' kind: None")
       ∧ get_dag_outputs spec io_store
         = Raise (ValueError "Got unknown 'parameter_selector_spec' kind: None")).
Proof.
  assert (∀ e, get_dag_output_parameters spec io_store = Raise e →
               get_dag_outputs spec io_store = Raise e) as Hfirst.
  { intros e He. unfold get_dag_outputs. by rewrite He. }
  split; [exact Hfirst|].
  intros pre key post Heq Hpre.
  assert (get_dag_output_parameters spec io_store
          = Raise (ValueError "Got unknown 'parameter_selector_spec' kind: None"))
    as He.
  { by eapply get_dag_output_parameters_raise. }
  split; [exact He | by apply Hfirst].
Qed.

(** X16.  After a run of [run_dag] that returns [(SUCCESS, None)], with a
    sort that lists no task twice, [get_dag_outputs] returns the outputs
    of the DAG when every declared output selects an output that a
    dispatched task returned: each parameter output, and each artifact
    output through its one selector.  The value of an artifact output is
    the value its task returned, and so is the value of a parameter output
    with a key that no artifact output has. *)
Theorem get_dag_outputs_after_success {PyValue Pb2Value Runner World : Type}
    (pb2_value_to_python : Pb2Value → PyValue)
    (topological_sort_tasks :
       ProtoMap (PipelineTaskSpec Pb2Value) → res (list string))
    (run_single_task_implementation : Dispatcher PyValue Pb2Value Runner World)
    (cfg : RunConfig Pb2Value Runner)
    (dag_component_spec : ComponentSpec Pb2Value) (dag_arguments : loc)
    (st st' : RunState PyValue Pb2Value Runner World)
    (done : list (Dispatch PyValue Pb2Value Runner))
    (sorted_tasks : list string) (spec : DagOutputsSpec) :
  run_dag pb2_value_to_python topological_sort_tasks
    run_single_task_implementation cfg dag_component_spec dag_arguments st
    = (Ok (SUCCESS, None), st') →
  dispatched st' = dispatched st ++ done →
  topological_sort_tasks (tasks (component_dag dag_component_spec))
    = Ok sorted_tasks →
  NoDup sorted_tasks →
  NoDup (proto_keys (output_parameters spec)) →
  NoDup (proto_keys (output_artifacts spec)) →
  (∀ key s, (key, s) ∈ output_parameters spec →
     ∃ d output_key,
       s = value_from_parameter (dispatch_task d) output_key
       ∧ d ∈ done ∧ is_Some (dispatch_outputs d !! output_key)) →
  (∀ key a, (key, a) ∈ output_artifacts spec →
     ∃ d output_key,
       artifact_selectors a =
         [{| producer_subtask := dispatch_task d;
             output_artifact_key := output_key |}]
       ∧ d ∈ done ∧ is_Some (dispatch_outputs d !! output_key)) →
  ∃ result,
    get_dag_outputs spec (io_store st') = Ok result
    ∧ (∀ key d output_key v,
         (key, {| artifact_selectors :=
                    [{| producer_subtask := dispatch_task d;
                        output_artifact_key := output_key |}] |})
           ∈ output_artifacts spec →
         d ∈ done → dispatch_outputs d !! output_key = Some v →
         result !! key = Some v)
    ∧ (∀ key d output_key v,
         (key, value_from_parameter (dispatch_task d) output_key)
           ∈ output_parameters spec →
         key ∉ proto_keys (output_artifacts spec) →
         d ∈ done → dispatch_outputs d !! output_key = Some v →
         result !! key = Some v).
Proof.
  intros Hrun Hdisp Hsort Hnd Hndp Hnda Hparams Harts.
  assert (∀ d k v, d ∈ done → dispatch_outputs d !! k = Some v →
            get_task_output (dispatch_task d) k (io_store st') = Ok v) as Hget.
  { intros d k v Hin Hv. apply get_task_output_Ok.
    apply run_dag_cases in Hrun as [(e & _ & He & _)|(sorted & Hsort' & Hrun)].
    { discriminate He. }
    rewrite Hsort in Hsort'. inversion Hsort'; subst sorted. clear Hsort'.
    apply run_tasks_trace in Hrun
      as (done' & rest & Hd' & _ & Hord & _ & _ & Hout).
    rewrite prepare_io_store_dispatched, Hdisp in Hd'.
    apply app_inv_head in Hd'. subst done'.
    destruct Hout as (-> & _ & Hst). rewrite app_nil_r in Hord.
    rewrite Hst. apply store_after_produced; [|done|done].
    rewrite <- Hord. apply NoDup_ListNoDup, NoDup_rev.
    by apply NoDup_ListNoDup. }
  assert (output_parameters_resolve (output_parameters spec) (io_store st'))
    as Hpres.
  { apply Forall_forall. intros [key s] Hin.
    destruct (Hparams key s Hin) as (d & k & -> & Hd & [v Hv]).
    exists v. simpl. by apply Hget. }
  assert (output_artifacts_resolve (output_artifacts spec) (io_store st'))
    as Hares.
  { apply Forall_forall. intros [key a] Hin.
    destruct (Harts key a Hin) as (d & k & Hsel & Hd & [v Hv]).
    exists v. simpl. unfold resolve_output_artifact. rewrite Hsel. simpl.
    by apply Hget. }
  destruct (get_dag_output_parameters_total _ _ Hpres) as [pm Hpm].
  destruct (get_dag_output_artifacts_total _ _ Hares) as [am Ham].
  exists (am ∪ pm). split; [|split].
  - unfold get_dag_outputs. rewrite Hpm. res_simpl. by rewrite Ham.
  - intros key d k v Hin Hd Hv.
    destruct (insert_loop_lookup (λ _ x, resolve_output_artifact x (io_store st'))
                _ _ _ _ _ Hnda Hin Ham) as (v' & Hres & Hlook).
    unfold resolve_output_artifact in Hres. simpl in Hres.
    rewrite (Hget d k v Hd Hv) in Hres. inversion Hres; subst v'.
    by apply lookup_union_Some_l.
  - intros key d k v Hin Hout Hd Hv.
    destruct (insert_loop_lookup (λ _ x, resolve_output_parameter x (io_store st'))
                _ _ _ _ _ Hndp Hin Hpm) as (v' & Hres & Hlook).
    simpl in Hres. rewrite (Hget d k v Hd Hv) in Hres.
    inversion Hres; subst v'.
    rewrite lookup_union_r; [done|].
    rewrite (insert_loop_other (λ _ x, resolve_output_artifact x (io_store st'))
                  _ _ _ _ Hout Ham).
    apply lookup_empty.
Qed.

(** * The properties on the concrete pipeline *)

Import Scenario.

(** The run with the dispatcher that always succeeds dispatches [A], then
    [B], and returns [(SUCCESS, None)]. *)
Lemma run_ok_dispatched : dispatched run_ok.2 = [dispatch_A SUCCESS; dispatch_B].
Proof. vm_compute. reflexivity. Qed.

Lemma run_ok_result : run_ok.1 = Ok (SUCCESS, None).
Proof. vm_compute. reflexivity. Qed.

Lemma run_fail_A_dispatched : dispatched run_fail_A.2 = [dispatch_A FAILURE].
Proof. vm_compute. reflexivity. Qed.

(** C1 on the run in which task [A] fails: the result names [A], and the
    dispatch of [A] is the only one. *)
Lemma run_dag_stops_at_failure_witness :
  run_fail_A.1 = Ok (FAILURE, Some "A")
  ∧ ∃ pre sorted_tasks rest,
      [dispatch_A FAILURE] = pre ++ [dispatch_A FAILURE]
      ∧ Forall (λ p, dispatch_status p = SUCCESS) pre
      ∧ sort_stack (tasks (component_dag dag_component)) = Ok sorted_tasks
      ∧ rev sorted_tasks = map dispatch_task pre ++ "A" :: rest
      ∧ io_store run_fail_A.2 =
          store_after
            (io_store (prepare_io_store decode dag_component user_arguments
                         start)) pre.
Proof.
  apply (run_dag_stops_at_failure decode sort_stack dispatcher_fail_A cfg
           dag_component user_arguments start run_fail_A.2 run_fail_A.1
           [dispatch_A FAILURE] (dispatch_A FAILURE)).
  - apply surjective_pairing.
  - vm_compute. reflexivity.
  - apply list_elem_of_here.
  - reflexivity.
Defined.

(** C2, as the spec words it, fails: when the executor of [B] is an
    importer, task [A] is dispatched and reports [SUCCESS], no other task
    is dispatched, and [run_dag] raises [NotImplementedError] instead of
    returning [(SUCCESS, None)]. *)
Lemma run_dag_raises_after_success :
  dispatched run_importer.2 = [dispatch_A SUCCESS]
  ∧ Forall (λ d, dispatch_status d = SUCCESS) (dispatched run_importer.2)
  ∧ run_importer.1 =
      Raise (NotImplementedError
        "Importer is not yet supported by local pipeline execution. Found 'dsl.importer' task in pipeline.")
  ∧ run_importer.1 ≠ Ok (SUCCESS, None).
Proof.
  split; [vm_compute; reflexivity|].
  split; [vm_compute; repeat constructor|].
  split; [vm_compute; reflexivity|].
  intros H. vm_compute in H. discriminate H.
Qed.

(** C2 on the run in which both tasks succeed: the result is
    [(SUCCESS, None)], and [x = 5] is in the store under [(A, x)] when [B]
    is dispatched. *)
Lemma run_dag_all_success_witness :
  run_ok.1 = Ok (SUCCESS, None)
  ∧ task_output_data
      (store_after
         (io_store (prepare_io_store decode dag_component user_arguments start))
         [dispatch_A SUCCESS]) !! ("A", "x") = Some 5%Z
  ∧ prepare_task decode cfg dag_AB "B"
      (store_after
         (io_store (prepare_io_store decode dag_component user_arguments start))
         [dispatch_A SUCCESS]) = Ok call_B.
Proof.
  destruct (run_dag_all_success decode sort_stack dispatcher_ok cfg
              dag_component user_arguments start run_ok.2 run_ok.1
              [dispatch_A SUCCESS; dispatch_B]) as (Hr & _ & _ & Hstep).
  - apply surjective_pairing.
  - vm_compute. reflexivity.
  - intros e He. vm_compute in He. discriminate He.
  - repeat constructor.
  - destruct (Hstep 0 (dispatch_A SUCCESS) eq_refl) as (_ & Hout & Hnext).
    split; [exact Hr|]. split.
    + apply (Hout "x" 5%Z). reflexivity.
    + apply (Hnext dispatch_B). reflexivity.
Defined.

(** C3, as the spec words it, fails: with the sort [A; B] of two tasks
    that consume nothing, [run_dag] dispatches [B] first, then [A]. *)
Lemma run_dag_dispatches_last_of_sort_first :
  sort_A_first (tasks (component_dag dag_component_independent))
    = Ok ["A"; "B"]
  ∧ run_A_first.1 = Ok (SUCCESS, None)
  ∧ map dispatch_task (dispatched run_A_first.2) = ["B"; "A"]
  ∧ map dispatch_task (dispatched run_A_first.2) ≠ ["A"; "B"].
Proof.
  split; [reflexivity|]. split; [vm_compute; reflexivity|].
  split; [vm_compute; reflexivity|].
  intros H. vm_compute in H. discriminate H.
Qed.

(** The stack [B; A] lists every task before the task whose output it
    consumes. *)
Lemma sort_stack_respects_producers (l1 l2 : list string) (t p : string) :
  ["B"; "A"] = l1 ++ t :: l2 →
  p ∈ producers (dag_task (component_dag dag_component) t) →
  p ∈ l2.
Proof.
  intros Heq Hp. destruct l1 as [|a [|b [|c l1]]]; simpl in Heq.
  - inversion Heq; subst. exact Hp.
  - inversion Heq; subst. vm_compute in Hp. by apply elem_of_nil in Hp.
  - inversion Heq.
  - inversion Heq.
Qed.

(** C3 as the code has it, on the run in which both tasks succeed: the
    sort is the stack [B; A], the dispatches are [A], then [B], and the
    producer [A] of the input of [B] is dispatched before [B]. *)
Lemma run_dag_dispatches_from_the_end_witness :
  map dispatch_task [dispatch_A SUCCESS; dispatch_B] = rev ["B"; "A"]
  ∧ "A" ∈ map dispatch_task [dispatch_A SUCCESS].
Proof.
  destruct (run_dag_dispatches_from_the_end decode sort_stack dispatcher_ok
              cfg dag_component user_arguments start run_ok.2 run_ok.1
              [dispatch_A SUCCESS; dispatch_B] ["B"; "A"])
    as (_ & Hall & Hdep).
  - apply surjective_pairing.
  - vm_compute. reflexivity.
  - reflexivity.
  - split.
    + apply Hall. vm_compute. reflexivity.
    + apply (Hdep (λ l1 t l2 Heq p Hp,
                     sort_stack_respects_producers l1 l2 t p Heq Hp)
               [dispatch_A SUCCESS] dispatch_B [] eq_refl "A").
      vm_compute. in_list.
Defined.

(** C4 on inputs of every kind of source. *)
Lemma make_task_arguments_by_source_tag_witness :
  make_task_arguments decode demo_inputs demo_store = Ok demo_args
  ∧ demo_args !! "y" = task_output_data demo_store !! ("A", "x")
  ∧ demo_args !! "data" = task_output_data demo_store !! ("B", "z")
  ∧ demo_args !! "n" = parent_input_data demo_store !! "n"
  ∧ demo_args !! "parent" = parent_input_data demo_store !! "n"
  ∧ make_task_arguments decode final_status_inputs demo_store
      = Raise (NotImplementedError
          "'dsl.ExitHandler' is not yet support for local execution.").
Proof.
  assert (make_task_arguments decode demo_inputs demo_store = Ok demo_args)
    as Hrun by (vm_compute; reflexivity).
  destruct (make_task_arguments_by_source_tag decode demo_inputs demo_store)
    as (_ & Hvalues & _).
  { compute_done. }
  { compute_done. }
  destruct (Hvalues demo_args Hrun) as (Hup & Hua & Hpp & Hpa).
  split; [exact Hrun|]. split; [|split; [|split; [|split]]].
  - apply (Hup "y" "A" "x"); [in_list | compute_done].
  - apply (Hua "data" "B" "z"). in_list.
  - apply (Hpp "n" "n"); [in_list | compute_done].
  - apply (Hpa "parent" "n"). in_list.
  - destruct (make_task_arguments_by_source_tag decode final_status_inputs
                demo_store) as (_ & _ & _ & Hfinal & _).
    { compute_done. }
    { compute_done. }
    apply (Hfinal [("c", runtime_value (constant 42%Z))] "status" "A" []).
    + reflexivity.
    + repeat constructor. by eexists.
Defined.

(** C5 on a task whose parameters are constants: the arguments are the
    same in the empty store and in a store with values. *)
Lemma constant_input_ignores_store_witness :
  make_task_arguments decode constant_inputs empty_io_store
    = make_task_arguments decode constant_inputs demo_store
  ∧ ∃ args, make_task_arguments decode constant_inputs empty_io_store = Ok args.
Proof.
  destruct (constant_input_ignores_store decode empty_io_store demo_store)
    as (_ & _ & Hsame).
  apply (Hsame constant_inputs).
  - repeat constructor; by eexists.
  - reflexivity.
Defined.

(** C6 on the dictionary [{"m": 7}] of the user and the declared defaults
    [n = 3] and [m = 9]: the result has [m = 7] and [n = 3], and the
    dictionary of the user still is [{"m": 7}]. *)
Lemma join_user_inputs_and_defaults_merges_witness :
  ∃ merged,
    (join_user_inputs_and_defaults decode (heap start) user_arguments
       (input_definitions dag_component)).2
      !! (join_user_inputs_and_defaults decode (heap start) user_arguments
            (input_definitions dag_component)).1 = Some merged
    ∧ merged !! "m" = Some 7%Z
    ∧ merged !! "n" = Some 3%Z
    ∧ (join_user_inputs_and_defaults decode (heap start) user_arguments
         (input_definitions dag_component)).2
        !! user_arguments = Some {[ "m" := 7%Z ]}.
Proof.
  destruct (join_user_inputs_and_defaults_merges decode (heap start)
              user_arguments {[ "m" := 7%Z ]}
              (input_definitions dag_component)
              (join_user_inputs_and_defaults decode (heap start)
                 user_arguments (input_definitions dag_component)).1
              (join_user_inputs_and_defaults decode (heap start)
                 user_arguments (input_definitions dag_component)).2)
    as (merged & Hm & Huser & Hdefault & _ & _ & Hsame & _).
  - vm_compute. reflexivity.
  - apply surjective_pairing.
  - exists merged. split; [exact Hm|]. split; [|split].
    + apply Huser. vm_compute. reflexivity.
    + apply (Hdefault "n" {| default_value := 3%Z |}).
      * reflexivity.
      * vm_compute. reflexivity.
    + exact Hsame.
Defined.

(** C8 on outputs in which the parameter [out] and the artifact [out]
    collide: the result has the value of the artifact. *)
Lemma get_dag_outputs_union_witness :
  ∃ result,
    get_dag_outputs colliding_outputs demo_store = Ok result
    ∧ result !! "out" = Some 5%Z
    ∧ result !! "p" = Some 10%Z.
Proof.
  destruct (get_dag_outputs_union colliding_outputs demo_store
              (<["out" := 10%Z]> (<["p" := 10%Z]> ∅)) {[ "out" := 5%Z ]})
    as (result & Hres & _ & Hart & Hpar).
  - vm_compute. reflexivity.
  - vm_compute. reflexivity.
  - exists result. split; [exact Hres|]. split.
    + apply Hart. vm_compute. reflexivity.
    + rewrite Hpar; vm_compute; reflexivity.
Defined.

(** C9 on a one-of parameter output and on an artifact output with two
    selectors. *)
Lemma dag_output_selection_errors_witness :
  get_dag_outputs oneof_outputs demo_store
    = Raise (NotImplementedError
        "'dsl.OneOf' is not yet supported in local execution.")
  ∧ get_dag_outputs two_selector_outputs demo_store
      = Raise (ValueError "Expected 1 artifact in ArtifactSelectorSpec. Got: 2").
Proof.
  split.
  - destruct (dag_output_selection_errors oneof_outputs demo_store)
      as (_ & _ & Honeof & _).
    apply (Honeof [("p", value_from_parameter "B" "z")] "q"
             [("A", "x"); ("B", "z")] []).
    + reflexivity.
    + repeat constructor. by eexists.
  - destruct (dag_output_selection_errors two_selector_outputs demo_store)
      as (_ & _ & _ & Hcount & _).
    apply (Hcount [("m", {| artifact_selectors := [selector_A] |})] "out"
             {| artifact_selectors := [selector_A; selector_B] |} []).
    + reflexivity.
    + repeat constructor. by eexists.
    + simpl. lia.
    + repeat constructor. by eexists.
Defined.

(** C10 on a [runtime_value] that is a runtime parameter. *)
Lemma runtime_value_must_be_constant_witness :
  resolve_parameter_input decode "r" (runtime_value (runtime_parameter "p"))
    demo_store = Raise (ValueError "Expected constant.")
  ∧ make_task_arguments decode runtime_parameter_inputs demo_store
      = Raise (ValueError "Expected constant.").
Proof.
  destruct (runtime_value_must_be_constant decode "r" (runtime_parameter "p")
              demo_store) as (Hone & Hall).
  - intros c Hc. discriminate Hc.
  - split; [exact Hone|].
    apply (Hall runtime_parameter_inputs
             [("c", runtime_value (constant 42%Z))] []).
    + reflexivity.
    + repeat constructor. by eexists.
Defined.

(** * The further properties on the concrete pipeline *)

Lemma run_ok_eq : run_ok = (Ok (SUCCESS, None), run_ok.2).
Proof.
  transitivity (run_ok.1, run_ok.2); [apply surjective_pairing|].
  apply (f_equal (λ r, (r, run_ok.2))). vm_compute. reflexivity.
Qed.

Lemma run_importer_eq :
  run_importer =
    (Raise (NotImplementedError
       "Importer is not yet supported by local pipeline execution. Found 'dsl.importer' task in pipeline."),
     run_importer.2).
Proof.
  transitivity (run_importer.1, run_importer.2); [apply surjective_pairing|].
  apply (f_equal (λ r, (r, run_importer.2))). vm_compute. reflexivity.
Qed.

(** X1 on the dictionary [{"m": 7}] and the declared [n] and [m]: the keys
    of the result are [m] and [n]. *)
Lemma join_user_inputs_and_defaults_keys_witness :
  ∃ merged,
    (join_user_inputs_and_defaults decode (heap start) user_arguments
       (input_definitions dag_component)).2
      !! (join_user_inputs_and_defaults decode (heap start) user_arguments
            (input_definitions dag_component)).1 = Some merged
    ∧ is_Some (merged !! "n") ∧ merged !! "other" = None.
Proof.
  destruct (join_user_inputs_and_defaults_keys decode (heap start)
              user_arguments {[ "m" := 7%Z ]}
              (input_definitions dag_component)
              (join_user_inputs_and_defaults decode (heap start)
                 user_arguments (input_definitions dag_component)).1
              (join_user_inputs_and_defaults decode (heap start)
                 user_arguments (input_definitions dag_component)).2)
    as (merged & Hm & Hkeys).
  - vm_compute. reflexivity.
  - apply surjective_pairing.
  - exists merged. split; [exact Hm|]. split.
    + apply Hkeys. right. compute_done.
    + apply eq_None_not_Some. intros Hsome. apply Hkeys in Hsome.
      destruct Hsome as [[v Hv]|Hin].
      * vm_compute in Hv. discriminate Hv.
      * revert Hin. compute_done.
Defined.

(** X2 on the same dictionary: the second result has the items of the
    first. *)
Lemma join_user_inputs_and_defaults_idempotent_witness :
  3%positive ≠ 2%positive
  ∧ (join_user_inputs_and_defaults decode
       (join_user_inputs_and_defaults decode (heap start) user_arguments
          (input_definitions dag_component)).2
       2%positive (input_definitions dag_component)).2 !! 3%positive
    = (join_user_inputs_and_defaults decode (heap start) user_arguments
         (input_definitions dag_component)).2 !! 2%positive
  ∧ (join_user_inputs_and_defaults decode
       (join_user_inputs_and_defaults decode (heap start) user_arguments
          (input_definitions dag_component)).2
       2%positive (input_definitions dag_component)).2 !! 2%positive
    = (join_user_inputs_and_defaults decode (heap start) user_arguments
         (input_definitions dag_component)).2 !! 2%positive.
Proof.
  apply (join_user_inputs_and_defaults_idempotent decode (heap start)
           user_arguments {[ "m" := 7%Z ]} (input_definitions dag_component)).
  - vm_compute. reflexivity.
  - vm_compute. reflexivity.
  - vm_compute. reflexivity.
Defined.

(** X3 on the run in which both tasks succeed: the parent inputs of the
    store are [m = 7], from the user, and [n = 3], the default. *)
Lemma run_dag_seeds_parent_inputs_witness :
  parent_input_data (io_store run_ok.2) !! "m" = Some 7%Z
  ∧ parent_input_data (io_store run_ok.2) !! "n" = Some 3%Z.
Proof.
  pose proof (run_dag_seeds_parent_inputs decode sort_stack dispatcher_ok cfg
                dag_component user_arguments {[ "m" := 7%Z ]} start run_ok.2
                run_ok.1 eq_refl (surjective_pairing run_ok)) as H.
  split; [exact (H "m") | exact (H "n")].
Defined.

(** X4 on the run in which task [A] fails: the dictionary of the user is
    still [{"m": 7}]. *)
Lemma run_dag_keeps_user_arguments_witness :
  heap run_fail_A.2 !! user_arguments = Some {[ "m" := 7%Z ]}
  ∧ ∃ new,
      heap start !! new = None
      ∧ is_Some (heap run_fail_A.2 !! new)
      ∧ ∀ l, l ≠ new → heap run_fail_A.2 !! l = heap start !! l.
Proof.
  exact (run_dag_keeps_user_arguments decode sort_stack dispatcher_fail_A cfg
           dag_component user_arguments {[ "m" := 7%Z ]} start run_fail_A.2
           run_fail_A.1 eq_refl (surjective_pairing run_fail_A)).
Defined.

(** X6 on the run in which task [A] reports the status [SKIPPED]. *)
Lemma run_dag_unknown_status_witness :
  run_skipped_A.1 = Raise (ValueError "Got unknown task status: SKIPPED")
  ∧ ∃ pre,
      [dispatch_A (OTHER_STATUS "SKIPPED")]
        = pre ++ [dispatch_A (OTHER_STATUS "SKIPPED")]
      ∧ Forall (λ p, dispatch_status p = SUCCESS) pre
      ∧ io_store run_skipped_A.2 =
          store_after
            (io_store (prepare_io_store decode dag_component user_arguments
                         start)) pre.
Proof.
  apply (run_dag_unknown_status decode sort_stack dispatcher_skipped_A cfg
           dag_component user_arguments start run_skipped_A.2 run_skipped_A.1
           [dispatch_A (OTHER_STATUS "SKIPPED")]
           (dispatch_A (OTHER_STATUS "SKIPPED")) "SKIPPED").
  - apply surjective_pairing.
  - vm_compute. reflexivity.
  - apply list_elem_of_here.
  - reflexivity.
Defined.

(** X7 on the run in which the executor of [B] is an importer: [A] was
    dispatched, [B] is the next task of the loop and its preparation
    raised. *)
Lemma run_dag_raises_before_dispatch_witness :
  (sort_stack (tasks (component_dag dag_component))
     = Raise (NotImplementedError
         "Importer is not yet supported by local pipeline execution. Found 'dsl.importer' task in pipeline.")
   ∧ [dispatch_A SUCCESS] = [])
  ∨ (∃ sorted_tasks t rest,
       sort_stack (tasks (component_dag dag_component)) = Ok sorted_tasks
       ∧ rev sorted_tasks = map dispatch_task [dispatch_A SUCCESS] ++ t :: rest
       ∧ prepare_task decode cfg_importer (component_dag dag_component) t
           (io_store run_importer.2)
         = Raise (NotImplementedError
             "Importer is not yet supported by local pipeline execution. Found 'dsl.importer' task in pipeline.")
       ∧ io_store run_importer.2 =
           store_after
             (io_store (prepare_io_store decode dag_component user_arguments
                          start))
             [dispatch_A SUCCESS]).
Proof.
  apply (run_dag_raises_before_dispatch decode sort_stack dispatcher_ok
           cfg_importer dag_component user_arguments start run_importer.2).
  - exact run_importer_eq.
  - vm_compute. reflexivity.
  - repeat constructor.
Defined.

(** X8 on the run in which both tasks succeed: the dispatch of [B] is the
    dispatch of a container, with the argument [y = 5]. *)
Lemma run_dag_dispatches_only_containers_witness :
  ∃ label image command,
    components cfg !! "comp-b" = Some (leaf "exec-b")
    ∧ implementation (leaf "exec-b") = executor_label label
    ∧ executors cfg !! label = Some (container image command)
    ∧ call_executor_spec call_B = container image command
    ∧ call_component_name call_B = "comp-b"
    ∧ make_task_arguments decode (inputs task_B)
        (store_after
           (io_store (prepare_io_store decode dag_component user_arguments
                        start))
           [dispatch_A SUCCESS]) = Ok {[ "y" := 5%Z ]}
    ∧ call_raise_on_error call_B = false
    ∧ call_block_input_artifact call_B = false
    ∧ call_unique_pipeline_id call_B = "run-1"
    ∧ call_pipeline_resource_name call_B = "pipeline"
    ∧ call_pipeline_root call_B = "/tmp/root"
    ∧ call_runner call_B = tt.
Proof.
  apply (run_dag_dispatches_only_containers decode sort_stack dispatcher_ok
           cfg dag_component user_arguments start run_ok.2 run_ok.1
           [dispatch_A SUCCESS; dispatch_B] 1 dispatch_B).
  - apply surjective_pairing.
  - vm_compute. reflexivity.
  - reflexivity.
Defined.

(** X9 on the run in which both tasks succeed: the output [x = 5] of [A]
    is in the store at the end. *)
Lemma run_dag_outputs_persist_witness :
  task_output_data (io_store run_ok.2) !! ("A", "x") = Some 5%Z
  ∧ resolve_output_parameter (value_from_parameter "A" "x")
      (io_store run_ok.2) = Ok 5%Z.
Proof.
  apply (run_dag_outputs_persist decode sort_stack dispatcher_ok cfg
           dag_component user_arguments start run_ok.2
           [dispatch_A SUCCESS; dispatch_B] ["B"; "A"]
           (dispatch_A SUCCESS) "x" 5%Z).
  - exact run_ok_eq.
  - vm_compute. reflexivity.
  - reflexivity.
  - compute_done.
  - apply list_elem_of_here.
  - reflexivity.
Defined.

(** X10 on the pipeline in which the executor of [B] is an importer: the
    loop dispatches [A], and [run_dag] raises for [B] in the state the
    dispatch of [A] left. *)
Lemma run_dag_rejects_task_witness :
  run_importer =
    (Raise (NotImplementedError
       "Importer is not yet supported by local pipeline execution. Found 'dsl.importer' task in pipeline."),
     (run_tasks decode dispatcher_ok cfg_importer
        (component_dag dag_component) ["A"]
        (prepare_io_store decode dag_component user_arguments start)).2).
Proof.
  destruct (run_dag_rejects_task decode sort_stack dispatcher_ok cfg_importer
              dag_component user_arguments start
              (run_tasks decode dispatcher_ok cfg_importer
                 (component_dag dag_component) ["A"]
                 (prepare_io_store decode dag_component user_arguments
                    start)).2
              ["B"; "A"] ["A"] [] "B") as [_ Hcomponent].
  - reflexivity.
  - reflexivity.
  - transitivity
      ((run_tasks decode dispatcher_ok cfg_importer
          (component_dag dag_component) ["A"]
          (prepare_io_store decode dag_component user_arguments start)).1,
       (run_tasks decode dispatcher_ok cfg_importer
          (component_dag dag_component) ["A"]
          (prepare_io_store decode dag_component user_arguments start)).2);
      [apply surjective_pairing|].
    apply (f_equal (λ r, (r, _))). vm_compute. reflexivity.
  - destruct (Hcomponent (leaf "exec-b")) as (_ & _ & Hexecutor).
    { vm_compute. reflexivity. }
    destruct (Hexecutor "exec-b" eq_refl) as (_ & Himporter & _).
    apply (Himporter "gs://bucket/data"). vm_compute. reflexivity.
Defined.

(** X11 and X12 on [demo_inputs]: the arguments are the same in
    [demo_store] and in the store with one more task output. *)
Lemma make_task_arguments_reads_named_entries_witness :
  make_task_arguments decode demo_inputs demo_store
    = make_task_arguments decode demo_inputs larger_store.
Proof.
  apply make_task_arguments_reads_named_entries.
  - intros producer key Hin. unfold larger_store. simpl.
    apply eq_sym, lookup_insert_ne. intros Heq. revert Hin.
    rewrite <- Heq. compute_done.
  - intros name _. reflexivity.
Defined.

Lemma make_task_arguments_stable_witness :
  make_task_arguments decode demo_inputs larger_store = Ok demo_args.
Proof.
  apply (make_task_arguments_stable decode demo_inputs demo_store).
  - split; [done|]. unfold larger_store. simpl.
    apply insert_subseteq. vm_compute. reflexivity.
  - vm_compute. reflexivity.
Defined.

(** X13 on [demo_inputs]: [y] is a key of the arguments, [z] is not. *)
Lemma make_task_arguments_keys_witness :
  is_Some (demo_args !! "y") ∧ demo_args !! "z" = None.
Proof.
  destruct (make_task_arguments_keys decode demo_inputs demo_store demo_args)
    as [Hkeys _].
  - vm_compute. reflexivity.
  - split.
    + apply Hkeys. left. compute_done.
    + apply eq_None_not_Some. intros Hsome. apply Hkeys in Hsome.
      revert Hsome. compute_done.
Defined.

(** X14 on [colliding_outputs]: the keys are [out] and [p], and the value
    of [out] is a task output of the store. *)
Lemma get_dag_outputs_keys_and_values_witness :
  is_Some (colliding_result !! "p")
  ∧ ∃ task output_key,
      task_output_data demo_store !! (task, output_key) = Some 5%Z.
Proof.
  destruct (get_dag_outputs_keys_and_values colliding_outputs demo_store
              colliding_result) as [Hkeys Hvalues].
  - vm_compute. reflexivity.
  - split.
    + apply Hkeys. left. compute_done.
    + apply (Hvalues "out"). vm_compute. reflexivity.
Defined.

(** X15 on a parameter output with no kind set, after one that
    resolves. *)
Lemma get_dag_outputs_parameter_errors_first_witness :
  get_dag_outputs
    {| output_parameters := [("p", value_from_parameter "B" "z");
                             ("q", output_kind_not_set)];
       output_artifacts := [("m", {| artifact_selectors := [] |})] |}
    demo_store
  = Raise (ValueError "Got unknown 'parameter_selector_spec' kind: None").
Proof.
  destruct (get_dag_outputs_parameter_errors_first
              {| output_parameters := [("p", value_from_parameter "B" "z");
                                       ("q", output_kind_not_set)];
                 output_artifacts := [("m", {| artifact_selectors := [] |})] |}
              demo_store) as [_ Hkind].
  apply (Hkind [("p", value_from_parameter "B" "z")] "q" []).
  - reflexivity.
  - repeat constructor. by eexists.
Defined.

(** X16 on the run in which both tasks succeed: the output [out] of the
    DAG is [z = 10], the output of [B]. *)
Lemma get_dag_outputs_after_success_witness :
  ∃ result,
    get_dag_outputs dag_outputs (io_store run_ok.2) = Ok result
    ∧ result !! "out" = Some 10%Z.
Proof.
  destruct (get_dag_outputs_after_success decode sort_stack dispatcher_ok cfg
              dag_component user_arguments start run_ok.2
              [dispatch_A SUCCESS; dispatch_B] ["B"; "A"] dag_outputs)
    as (result & Hres & _ & Hparam).
  - exact run_ok_eq.
  - vm_compute. reflexivity.
  - reflexivity.
  - compute_done.
  - compute_done.
  - compute_done.
  - intros key s Hin. apply list_elem_of_singleton in Hin.
    inversion Hin; subst. exists dispatch_B, "z".
    split; [reflexivity|]. split; [in_list | by eexists].
  - intros key a Hin. by apply elem_of_nil in Hin.
  - exists result. split; [exact Hres|].
    apply (Hparam "out" dispatch_B "z" 10%Z).
    + in_list.
    + compute_done.
    + in_list.
    + reflexivity.
Defined.
